(** * SecuritySanitizer: a shallow embedding of
    [backend/src/utils/sanitizer.py] and the properties of its
    [sanitize_input] / [validate_input] pipeline.

    A Python [str] is a sequence of Unicode code points; it is modelled as
    [list N].  Character sets ([set('...')]) are lists with boolean
    membership, the pattern dictionary is an ordered association list
    (Python dictionaries keep insertion order, and the general transform
    depends on it).

    The library functions the module calls ([urllib.parse.unquote],
    [html.unescape], [html.escape], [re.compile] / [sub] / [search]) are
    given executable models that follow the CPython 3.11 sources.  The
    data of the runtime that is too large to write down (the Unicode
    character database behind [\w], [\d], [\s] and case-insensitive
    matching, and the [html.entities.html5] table) is a parameter
    [py_tables]; every general theorem holds for all values of it.

    The one exception the code lets through, the [ValueError] of
    [html.unescape] on an over-long decimal character reference, is
    modelled by the [_checked] functions, which return an [option]; the
    functions without that suffix give the value returned when nothing
    is raised. *)

From Stdlib Require Import Arith NArith List Bool Ascii String Lia QArith.
Import ListNotations.

Open Scope N_scope.
Open Scope list_scope.

(** ** Strings *)

Definition str := list N.

(** A string literal of the source, as code points (ASCII text only). *)
Definition lit (s : string) : str :=
  map N_of_ascii (list_ascii_of_string s).

(** [a == b] on strings. *)
Fixpoint str_eqb (a b : str) : bool :=
  match a, b with
  | [], [] => true
  | x :: a', y :: b' => (x =? y) && str_eqb a' b'
  | _, _ => false
  end.

(** [c in chars] for a character set written as a string. *)
Definition mem (c : N) (chars : list N) : bool :=
  existsb (N.eqb c) chars.

(** [''.join(c for c in data if c in allowed)] *)
Definition keep_only (allowed : list N) (data : str) : str :=
  filter (fun c => mem c allowed) data.

(** [data.replace(old, new)] for a one-character [old]. *)
Definition replace_char (old : N) (new : str) (data : str) : str :=
  flat_map (fun c => if c =? old then new else [c]) data.

(** [old in data] for a one-character [old]. *)
Definition contains (old : N) (data : str) : bool := mem old data.

(** ** Data of the Python runtime taken as a parameter

    [uni_isspace], [uni_isdecimal], [uni_isalnum] answer for code points
    from 128 on (the ASCII range is fixed in the model below);
    [uni_caseless c p] tells whether the non-ASCII code point [c] matches
    the lower-case ASCII letter [p] under [re.IGNORECASE];
    [html5] is the dictionary [html.entities.html5]. *)
Record py_tables := {
  uni_isspace : N -> bool;
  uni_isdecimal : N -> bool;
  uni_isalnum : N -> bool;
  uni_caseless : N -> N -> bool;
  html5 : str -> option str
}.

(** ** UTF-8

    The decoder marks every maximal ill-formed prefix with [None], as
    CPython's decoder reports it to the error handler: [errors='replace']
    writes U+FFFD there and [errors='strict'] raises.  The decoder state
    is the code point accumulated so far, the number of continuation
    bytes still expected after the next one, and the range the next byte
    must lie in.  An item of the input is either a byte ([inl]) or a code
    point passed through unchanged ([inr]), which ends any sequence under
    way: [unquote] decodes each ASCII run on its own. *)

Definition REPLACEMENT : N := 65533.

Definition utf8_state := (N * nat * N * N)%type.

Definition utf8_start (b : N) (rec : option utf8_state -> list (option N))
  : list (option N) :=
  if b <? 128 then Some b :: rec None
  else if b <? 194 then None :: rec None
  else if b <? 224 then rec (Some (b - 192, 0%nat, 128, 191))
  else if b =? 224 then rec (Some (0, 1%nat, 160, 191))
  else if b =? 237 then rec (Some (13, 1%nat, 128, 159))
  else if b <? 240 then rec (Some (b - 224, 1%nat, 128, 191))
  else if b =? 240 then rec (Some (0, 2%nat, 144, 191))
  else if b <? 244 then rec (Some (b - 240, 2%nat, 128, 191))
  else if b =? 244 then rec (Some (4, 2%nat, 128, 143))
  else None :: rec None.

Fixpoint utf8_decode (st : option utf8_state) (items : list (N + N))
  : list (option N) :=
  match items with
  | [] => match st with None => [] | Some _ => [None] end
  | inr c :: rest =>
      match st with
      | None => Some c :: utf8_decode None rest
      | Some _ => None :: Some c :: utf8_decode None rest
      end
  | inl b :: rest =>
      match st with
      | None => utf8_start b (fun st' => utf8_decode st' rest)
      | Some (acc, more, lo, hi) =>
          if (lo <=? b) && (b <=? hi) then
            let acc' := acc * 64 + (b - 128) in
            match more with
            | O => Some acc' :: utf8_decode None rest
            | S more' => utf8_decode (Some (acc', more', 128, 191)) rest
            end
          else
            None :: utf8_start b (fun st' => utf8_decode st' rest)
      end
  end.

(** [bytes.decode('utf-8', 'replace')] *)
Definition utf8_decode_replace (items : list (N + N)) : str :=
  map (fun o => match o with Some c => c | None => REPLACEMENT end)
      (utf8_decode None items).

(** [bytes.decode('utf-8')]: [None] stands for [UnicodeDecodeError]. *)
Definition utf8_decode_strict (bytes : list N) : option str :=
  fold_right (fun o acc =>
                match o, acc with
                | Some c, Some s => Some (c :: s)
                | _, _ => None
                end)
             (Some []) (utf8_decode None (map inl bytes)).

Definition is_surrogate (c : N) : bool := (55296 <=? c) && (c <=? 57343).

(** [str.encode('utf-8', 'ignore')]: a surrogate cannot be encoded and is
    left out. *)
Definition utf8_encode_char (c : N) : list N :=
  if c <? 128 then [c]
  else if c <? 2048 then [192 + c / 64; 128 + c mod 64]
  else if is_surrogate c then []
  else if c <? 65536 then
    [224 + c / 64 / 64; 128 + (c / 64) mod 64; 128 + c mod 64]
  else
    [240 + c / 64 / 64 / 64; 128 + (c / 64 / 64) mod 64;
     128 + (c / 64) mod 64; 128 + c mod 64].

Definition utf8_encode_ignore (s : str) : list N := flat_map utf8_encode_char s.

(** ** [urllib.parse.unquote]

    [_hexdig = '0123456789ABCDEFabcdef'] *)
Definition hex_value (c : N) : option N :=
  if (48 <=? c) && (c <=? 57) then Some (c - 48)
  else if (65 <=? c) && (c <=? 70) then Some (c - 55)
  else if (97 <=? c) && (c <=? 102) then Some (c - 87)
  else None.

(** [unquote_to_bytes] on the ASCII runs: [%XX] with two hexadecimal
    digits becomes the byte, any other [%] stays; characters from 128 on
    are outside the runs and stay as they are. *)
Fixpoint unquote_items (s : str) : list (N + N) :=
  match s with
  | [] => []
  | c :: s' =>
      if c =? 37 then
        match s' with
        | h1 :: h2 :: rest =>
            match hex_value h1, hex_value h2 with
            | Some a, Some b => inl (16 * a + b) :: unquote_items rest
            | _, _ => inl c :: unquote_items s'
            end
        | _ => inl c :: unquote_items s'
        end
      else if c <? 128 then inl c :: unquote_items s'
      else inr c :: unquote_items s'
  end.

Definition unquote (s : str) : str :=
  if negb (contains 37 s) then s
  else utf8_decode_replace (unquote_items s).

(** ** [html.escape(s, quote=True)] *)
Definition html_escape (s : str) : str :=
  let s := replace_char 38 (lit "&amp;") s in
  let s := replace_char 60 (lit "&lt;") s in
  let s := replace_char 62 (lit "&gt;") s in
  let s := replace_char 34 (lit "&quot;") s in
  replace_char 39 (lit "&#x27;") s.

(** ** [html.unescape] *)

(** [_invalid_charrefs] *)
Definition invalid_charrefs : list (N * N) :=
  [ (0, 65533); (13, 13); (128, 8364); (129, 129); (130, 8218); (131, 402);
    (132, 8222); (133, 8230); (134, 8224); (135, 8225); (136, 710);
    (137, 8240); (138, 352); (139, 8249); (140, 338); (141, 141);
    (142, 381); (143, 143); (144, 144); (145, 8216); (146, 8217);
    (147, 8220); (148, 8221); (149, 8226); (150, 8211); (151, 8212);
    (152, 732); (153, 8482); (154, 353); (155, 8250); (156, 339);
    (157, 157); (158, 382); (159, 376) ].

Fixpoint assoc {A : Type} (k : N) (l : list (N * A)) : option A :=
  match l with
  | [] => None
  | (k', v) :: l' => if k =? k' then Some v else assoc k l'
  end.

(** [num in _invalid_codepoints], for [num <= 0x10FFFF]: 0x1-0x8,
    0xE-0x1F, 0x7F-0x9F, 0xFDD0-0xFDEF, 0xB and the last two code points
    of every plane. *)
Definition invalid_codepoint (num : N) : bool :=
  ((1 <=? num) && (num <=? 8)) || ((14 <=? num) && (num <=? 31))
  || ((127 <=? num) && (num <=? 159))
  || ((64976 <=? num) && (num <=? 65007))
  || (num =? 11) || (65534 <=? num mod 65536).

Definition is_digit (c : N) : bool := (48 <=? c) && (c <=? 57).

Definition is_hexdigit (c : N) : bool :=
  match hex_value c with Some _ => true | None => false end.

(** [[^\t\n\f <&#;]] *)
Definition is_name_char (c : N) : bool :=
  negb (mem c [9; 10; 12; 32; 60; 38; 35; 59]).

(** Length of the longest prefix of [s] (of at most [n] characters)
    whose characters satisfy [p]: a greedy [p{0,n}]. *)
Fixpoint span_upto (n : nat) (p : N -> bool) (s : str) : nat :=
  match n, s with
  | S n', c :: s' => if p c then S (span_upto n' p s') else O
  | _, _ => O
  end.

Definition span_while (p : N -> bool) (s : str) : nat :=
  span_upto (List.length s) p s.

(** A trailing [;?] *)
Definition opt_semicolon (s : str) : nat :=
  match s with
  | 59 :: _ => 1%nat
  | _ => O
  end.

(** Length of group 1 of
    [_charref = &(#[0-9]+;?|#[xX][0-9a-fA-F]+;?|[^\t\n\f <&#;]{1,32};?)]
    matched on the text [s] that follows an ampersand. *)
Definition charref_group (s : str) : option nat :=
  let decimal :=
    match s with
    | 35 :: r =>
        match span_while is_digit r with
        | O => None
        | d => Some (1 + d + opt_semicolon (skipn d r))%nat
        end
    | _ => None
    end in
  let hexadecimal :=
    match s with
    | 35 :: x :: r =>
        if (x =? 120) || (x =? 88) then
          match span_while is_hexdigit r with
          | O => None
          | h => Some (2 + h + opt_semicolon (skipn h r))%nat
          end
        else None
    | _ => None
    end in
  let named :=
    match span_upto 32 is_name_char s with
    | O => None
    | n => Some (n + opt_semicolon (skipn n s))%nat
    end in
  match decimal with
  | Some n => Some n
  | None => match hexadecimal with Some n => Some n | None => named end
  end.

(** [s.rstrip(';')] *)
Definition rstrip_semicolon (s : str) : str :=
  fold_right (fun c acc =>
                match acc with
                | [] => if c =? 59 then [] else [c]
                | _ => c :: acc
                end) [] s.

(** [int(s, base)] on a string of digits of that base: the value [int]
    returns when it raises nothing.  CPython raises [ValueError] on a
    decimal string of more than 4300 digits; [int_checked] and the
    section on the exception of [html.unescape] below model that. *)
Definition int_of (base : N) (s : str) : N :=
  fold_left (fun acc c =>
               acc * base + match hex_value c with Some v => v | None => 0 end)
            s 0.

Section Runtime.

Variable T : py_tables.

(** [for x in range(len(s)-1, 1, -1): if s[:x] in _html5: ...] *)
Fixpoint longest_entity (x : nat) (s : str) : option str :=
  match x with
  | O => None
  | S x' =>
      if Nat.leb x 1 then None
      else match html5 T (firstn x s) with
           | Some v => Some (v ++ skipn x s)
           | None => longest_entity x' s
           end
  end.

(** [_replace_charref], on the text of group 1. *)
Definition replace_charref (s : str) : str :=
  match s with
  | 35 :: r =>
      let num :=
        match r with
        | x :: r' =>
            if (x =? 120) || (x =? 88)
            then int_of 16 (rstrip_semicolon r')
            else int_of 10 (rstrip_semicolon r)
        | [] => 0
        end in
      match assoc num invalid_charrefs with
      | Some v => [v]
      | None =>
          if ((55296 <=? num) && (num <=? 57343)) || (1114111 <? num)
          then [REPLACEMENT]
          else if invalid_codepoint num then []
          else [num]
      end
  | _ =>
      match html5 T s with
      | Some v => v
      | None =>
          match longest_entity (List.length s - 1) s with
          | Some v => v
          | None => 38 :: s
          end
      end
  end.

(** [_charref.sub(_replace_charref, s)]: [skip] counts the characters of
    a reference already replaced. *)
Fixpoint charref_sub (skip : nat) (s : str) : str :=
  match s with
  | [] => []
  | c :: s' =>
      match skip with
      | S n => charref_sub n s'
      | O =>
          if c =? 38 then
            match charref_group s' with
            | Some n => replace_charref (firstn n s') ++ charref_sub n s'
            | None => c :: charref_sub O s'
            end
          else c :: charref_sub O s'
      end
  end.

(** [html.unescape]: the text it returns when it raises nothing
    ([html_unescape_checked] below says when it raises). *)
Definition html_unescape (s : str) : str :=
  if negb (contains 38 s) then s else charref_sub O s.

(** ** Regular expressions ([re])

    Only the constructs the pattern table uses: literals, [.],
    character classes, [\w], [\s], [\d], [\b], greedy [*] and [+] and
    lazy [*?] on a single-character atom, concatenation and alternation.
    Groups only group here (no back-references, and [sub] replaces by the
    empty string), so they leave no trace in the syntax tree. *)

Inductive atom :=
| Lit (c : N)
| Any
| OneOf (cs : list N)
| NoneOf (cs : list N)
| Word
| Space
| Digit.

Inductive regex :=
| Eps
| Chr (a : atom)
| Star (a : atom)
| Plus (a : atom)
| LazyStar (a : atom)
| Boundary
| Cat (r1 r2 : regex)
| Alt (r1 r2 : regex).

(** A compiled pattern: its source text ([pattern.pattern]), the parsed
    expression and the flags given to [re.compile]. *)
Record Pattern := {
  pattern : str;
  prog : regex;
  IGNORECASE : bool;
  DOTALL : bool
}.

Definition is_ascii_upper (c : N) : bool := (65 <=? c) && (c <=? 90).
Definition is_ascii_lower (c : N) : bool := (97 <=? c) && (c <=? 122).
Definition is_ascii_letter (c : N) : bool :=
  is_ascii_upper c || is_ascii_lower c.
Definition ascii_lower (c : N) : N :=
  if is_ascii_upper c then c + 32 else c.

(** [\s]: [str.isspace] of the character. *)
Definition is_space (c : N) : bool :=
  if c <? 128 then ((9 <=? c) && (c <=? 13)) || ((28 <=? c) && (c <=? 32))
  else uni_isspace T c.

(** [\d]: a Unicode decimal digit. *)
Definition is_decimal (c : N) : bool :=
  if c <? 128 then is_digit c else uni_isdecimal T c.

(** [\w]: [str.isalnum] of the character, or an underscore. *)
Definition is_word (c : N) : bool :=
  if c <? 128 then is_ascii_letter c || is_digit c || (c =? 95)
  else uni_isalnum T c.

(** A literal under [re.IGNORECASE]: a letter of the pattern matches the
    characters whose lower case it is (all literals of the table are
    ASCII); any other character only matches itself. *)
Definition lit_match (ignorecase : bool) (p c : N) : bool :=
  if ignorecase && is_ascii_letter p then
    if c <? 128 then ascii_lower c =? ascii_lower p
    else uni_caseless T c (ascii_lower p)
  else c =? p.

(** The classes of the table hold no letters, so [re.IGNORECASE] does not
    change them. *)
Definition atom_match (ignorecase dotall : bool) (a : atom) (c : N) : bool :=
  match a with
  | Lit p => lit_match ignorecase p c
  | Any => dotall || negb (c =? 10)
  | OneOf cs => mem c cs
  | NoneOf cs => negb (mem c cs)
  | Word => is_word c
  | Space => is_space c
  | Digit => is_decimal c
  end.

(** Backtracking matching in continuation-passing style.  A position in
    the subject is the character before it ([prev], for [\b]) and the
    text after it; a successful match returns the text after its end.
    The order in which the alternatives are tried is the one of [re]:
    the first alternative first, the longest repetition first for a
    greedy quantifier and the shortest first for a lazy one. *)

Definition cont := option N -> str -> option str.

Fixpoint star_greedy (test : N -> bool) (k : cont) (prev : option N) (s : str)
  : option str :=
  match s with
  | c :: s' =>
      if test c then
        match star_greedy test k (Some c) s' with
        | Some r => Some r
        | None => k prev s
        end
      else k prev s
  | [] => k prev s
  end.

Fixpoint star_lazy (test : N -> bool) (k : cont) (prev : option N) (s : str)
  : option str :=
  match k prev s with
  | Some r => Some r
  | None =>
      match s with
      | c :: s' => if test c then star_lazy test k (Some c) s' else None
      | [] => None
      end
  end.

Definition word_at (c : option N) : bool :=
  match c with Some c => is_word c | None => false end.

Fixpoint rmatch (ic da : bool) (r : regex) (k : cont) (prev : option N) (s : str)
  : option str :=
  match r with
  | Eps => k prev s
  | Chr a =>
      match s with
      | c :: s' => if atom_match ic da a c then k (Some c) s' else None
      | [] => None
      end
  | Star a => star_greedy (atom_match ic da a) k prev s
  | Plus a =>
      match s with
      | c :: s' =>
          if atom_match ic da a c
          then star_greedy (atom_match ic da a) k (Some c) s'
          else None
      | [] => None
      end
  | LazyStar a => star_lazy (atom_match ic da a) k prev s
  | Boundary =>
      if xorb (word_at prev) (word_at (hd_error s)) then k prev s else None
  | Cat r1 r2 => rmatch ic da r1 (rmatch ic da r2 k) prev s
  | Alt r1 r2 =>
      match rmatch ic da r1 k prev s with
      | Some r => Some r
      | None => rmatch ic da r2 k prev s
      end
  end.

(** The match of [p] that starts at this position, as the number of
    characters it spans. *)
Definition match_here (p : Pattern) (prev : option N) (s : str) : option nat :=
  match rmatch (IGNORECASE p) (DOTALL p) (prog p) (fun _ rest => Some rest) prev s with
  | Some rest => Some (List.length s - List.length rest)%nat
  | None => None
  end.

(** The character before the position that follows [pre], when [prev]
    is the character before [pre]. *)
Definition char_before (prev : option N) (pre : str) : option N :=
  fold_left (fun _ c => Some c) pre prev.

(** [pattern.search(data)], as a truth value. *)
Fixpoint search_from (p : Pattern) (prev : option N) (s : str) : bool :=
  match match_here p prev s with
  | Some _ => true
  | None =>
      match s with
      | c :: s' => search_from p (Some c) s'
      | [] => false
      end
  end.

Definition search (p : Pattern) (data : str) : bool := search_from p None data.

(** [pattern.sub('', data)]: the leftmost match is cut out and the scan
    resumes at its end; [skip] counts the characters of a match still to
    be dropped.  An empty match replaced by the empty string changes
    nothing. *)
Fixpoint sub_from (p : Pattern) (skip : nat) (prev : option N) (s : str) : str :=
  match s with
  | [] => []
  | c :: s' =>
      match skip with
      | S n => sub_from p n (Some c) s'
      | O =>
          match match_here p prev s with
          | Some (S n) => sub_from p n (Some c) s'
          | _ => c :: sub_from p O (Some c) s'
          end
      end
  end.

Definition sub_empty (p : Pattern) (data : str) : str := sub_from p O None data.

End Runtime.

(** Builders for the syntax trees of the table. *)
Definition text (s : string) : regex :=
  fold_right (fun c r => Cat (Chr (Lit c)) r) Eps (lit s).

Definition seq (rs : list regex) : regex := fold_right Cat Eps rs.

Fixpoint alt (rs : list regex) : regex :=
  match rs with
  | [] => Eps
  | [r] => r
  | r :: rs' => Alt r (alt rs')
  end.

(** [re.compile(source, flags)]; the parsed expression is written next to
    its source text in the table below.  A leading [(?i)] only sets the
    flag the table is compiled with anyway. *)
Definition re_compile (src : str * regex) (ignorecase dotall : bool) : Pattern :=
  {| pattern := fst src; prog := snd src;
     IGNORECASE := ignorecase; DOTALL := dotall |}.

(** ** The tables of [SecuritySanitizer] *)

Inductive category := xss | sql | path_traversal | command_injection.

Definition category_name (c : category) : str :=
  match c with
  | xss => lit "xss"
  | sql => lit "sql"
  | path_traversal => lit "path_traversal"
  | command_injection => lit "command_injection"
  end.

Definition category_eqb (a b : category) : bool :=
  match a, b with
  | xss, xss | sql, sql | path_traversal, path_traversal
  | command_injection, command_injection => true
  | _, _ => false
  end.

(** [<tag[^>]*>.*?</tag>] *)
Definition element (tag : string) : regex :=
  seq [text "<"; text tag; Star (NoneOf (lit ">")); text ">";
       LazyStar Any; text "</"; text tag; text ">"].

(** [<tag[^>]*>] *)
Definition open_tag (tag : string) : regex :=
  seq [text "<"; text tag; Star (NoneOf (lit ">")); text ">"].

(** [(w1|w2|...)\s+] *)
Definition keyword (ws : list string) : regex :=
  seq [alt (map text ws); Plus Space].

(** [\d+\s*=\s*\d+] *)
Definition tautology : regex :=
  seq [Plus Digit; Star Space; text "="; Star Space; Plus Digit].

Definition DANGEROUS_PATTERNS : list (category * list (str * regex)) :=
  [ (xss,
     [ (lit "<script[^>]*>.*?</script>", element "script");
       (lit "javascript:", text "javascript:");
       (lit "on\w+\s*=", seq [text "on"; Plus Word; Star Space; text "="]);
       (lit "<iframe[^>]*>.*?</iframe>", element "iframe");
       (lit "<object[^>]*>.*?</object>", element "object");
       (lit "<embed[^>]*>.*?</embed>", element "embed");
       (lit "<link[^>]*>", open_tag "link");
       (lit "<meta[^>]*>", open_tag "meta");
       (lit "<style[^>]*>.*?</style>", element "style");
       (lit "expression\s*\(", seq [text "expression"; Star Space; text "("]);
       (lit "@import", text "@import");
       (lit "vbscript:", text "vbscript:");
       (lit "data:text/html", text "data:text/html") ]);
    (sql,
     [ (lit "(?i)(union|select|insert|update|delete|drop|create|alter|exec|execute)\s+",
        keyword ["union"; "select"; "insert"; "update"; "delete"; "drop";
                 "create"; "alter"; "exec"; "execute"]%string);
       (lit "(?i)(or|and)\s+\d+\s*=\s*\d+",
        seq [alt [text "or"; text "and"]; Plus Space; tautology]);
       (lit "(?i)(\'|\" ++ [34] ++ lit ")(\s*;\s*|\s*--|\s*/\*)",
        seq [alt [text "'"; Chr (Lit 34)];
             alt [seq [Star Space; text ";"; Star Space];
                  seq [Star Space; text "--"];
                  seq [Star Space; text "/*"]]]);
       (lit "(?i)(\bor\b|\band\b)\s+(\bfalse\b|\btrue\b|\d+\s*=\s*\d+)",
        seq [alt [seq [Boundary; text "or"; Boundary];
                  seq [Boundary; text "and"; Boundary]];
             Plus Space;
             alt [seq [Boundary; text "false"; Boundary];
                  seq [Boundary; text "true"; Boundary];
                  tautology]]) ]);
    (path_traversal,
     [ (lit "\.\./+", seq [text ".."; Plus (Lit 47)]);
       (lit "\.\.\\+", seq [text ".."; Plus (Lit 92)]);
       (lit "%2e%2e%2f", text "%2e%2e%2f");
       (lit "%2e%2e%5c", text "%2e%2e%5c");
       (lit "%252e%252e%252f", text "%252e%252e%252f") ]);
    (command_injection,
     [ (lit "[;&|`$(){}[\]<>]", Chr (OneOf (lit ";&|`$(){}[]<>")));
       (lit "(?i)(rm|del|format|shutdown|reboot)\s+",
        keyword ["rm"; "del"; "format"; "shutdown"; "reboot"]%string);
       (lit "(?i)(cat|type|more|less)\s+",
        keyword ["cat"; "type"; "more"; "less"]%string);
       (lit "(?i)(wget|curl|nc|netcat)\s+",
        keyword ["wget"; "curl"; "nc"; "netcat"]%string) ]) ].

Inductive safe_class := alphanumeric | basic_punctuation | whitespace | extended.

Definition SAFE_CHARS (k : safe_class) : list N :=
  match k with
  | alphanumeric =>
      lit "abcdefghijklmnopqrstuvwxyzABCDEFGHIJKLMNOPQRSTUVWXYZ0123456789"
  | basic_punctuation =>
      lit ".,!?;:()[]{}" ++ [34] ++ lit "'-_+=@#$%^&*~/|\`"
  | whitespace => [32; 9; 10; 13]
  | extended =>
      [224; 225; 226; 227; 228; 229; 230; 231; 232; 233; 234; 235; 236; 237;
       238; 239; 241; 242; 243; 244; 245; 246; 248; 249; 250; 251; 252; 253;
       255; 223]
  end.

(** [_compile_patterns]: every pattern is compiled with
    [re.IGNORECASE | re.DOTALL]. *)
Definition _compile_patterns : list (category * list Pattern) :=
  map (fun entry =>
         (fst entry, map (fun src => re_compile src true true) (snd entry)))
      DANGEROUS_PATTERNS.

(** [self.compiled_patterns], set by [__init__]. *)
Definition compiled_patterns : list (category * list Pattern) :=
  _compile_patterns.

(** [self.compiled_patterns[key]] *)
Definition patterns_of (key : category) : list Pattern :=
  match find (fun entry => category_eqb (fst entry) key) compiled_patterns with
  | Some entry => snd entry
  | None => []
  end.

(** ** The percent-decoding loop of [_normalize_encoding]

    The loop is written over any step function that may fail ([None]
    stands for an exception raised by the call, which the [try] of the
    source catches).  It returns [current_data] and, as a ghost value,
    the number of calls it made. *)
Fixpoint decode_passes (dec : str -> option str) (iterations : nat)
  (prev_data current_data : str) : str * nat :=
  match iterations with
  | O => (current_data, O)
  | S n =>
      if str_eqb prev_data current_data then (current_data, O)
      else
        match dec current_data with
        | Some next =>
            let (r, calls) := decode_passes dec n current_data next in
            (r, S calls)
        | None => (current_data, 1%nat)
        end
  end.

(** [k] successful calls of [dec] in a row, starting from [d]. *)
Fixpoint passes (dec : str -> option str) (k : nat) (d : str) : option str :=
  match k with
  | O => Some d
  | S k' =>
      match dec d with
      | Some d' => passes dec k' d'
      | None => None
      end
  end.

Definition max_iterations : nat := 5.

(** [unquote] raises nothing on a [str]. *)
Definition try_unquote (s : str) : option str := Some (unquote s).

(** [s.encode('utf-8', 'ignore').decode('utf-8')]: the encoder drops the
    surrogates and strict decoding gives back the other code points
    ([utf8_roundtrip] below), so the step is written as a filter. *)
Definition utf8_roundtrip_ignore (s : str) : str :=
  filter (fun c => negb (is_surrogate c)) s.

Section SecuritySanitizer.

Variable T : py_tables.

(** [for pattern in patterns: data = pattern.sub('', data)] *)
Definition remove_all (patterns : list Pattern) (data : str) : str :=
  fold_left (fun d p => sub_empty T p d) patterns data.

Definition _normalize_encoding (data : str) : str :=
  let current_data := fst (decode_passes try_unquote max_iterations [] data) in
  let current_data := html_unescape T current_data in
  utf8_roundtrip_ignore current_data.

Definition _sanitize_html (data : str) (strict : bool) : str :=
  let data := remove_all (patterns_of xss) data in
  if strict then html_escape data
  else html_escape data.

Definition _sanitize_sql (data : str) (strict : bool) : str :=
  let data := remove_all (patterns_of sql) data in
  if strict then
    let data := replace_char 39 (lit "''") data in
    let data := replace_char 34 [34; 34] data in
    let data := replace_char 92 (lit "\\") data in
    let data := replace_char 37 (lit "\%") data in
    replace_char 95 (lit "\_") data
  else data.

Definition _sanitize_path (data : str) (strict : bool) : str :=
  let data := remove_all (patterns_of path_traversal) data in
  if strict then
    let safe_chars := SAFE_CHARS alphanumeric ++ lit ".-_" in
    keep_only safe_chars data
  else data.

Definition _sanitize_command (data : str) (strict : bool) : str :=
  let data := remove_all (patterns_of command_injection) data in
  if strict then
    let safe_chars := SAFE_CHARS alphanumeric ++ lit " .-_" in
    keep_only safe_chars data
  else data.

Definition _sanitize_general (data : str) (strict : bool) : str :=
  fold_left (fun d category_patterns => remove_all category_patterns d)
            (map snd compiled_patterns) data.

(** The set [allowed] computed by [_whitelist_filter]. *)
Definition allowed (context : str) : list N :=
  if str_eqb context (lit "html") then
    SAFE_CHARS alphanumeric ++ SAFE_CHARS basic_punctuation
    ++ SAFE_CHARS whitespace
  else if str_eqb context (lit "sql") then
    SAFE_CHARS alphanumeric ++ SAFE_CHARS whitespace
    ++ (lit ".,!?;:()[]{}" ++ [34] ++ lit "'-_+=@")
  else if str_eqb context (lit "path") then
    SAFE_CHARS alphanumeric ++ lit ".-_/"
  else if str_eqb context (lit "command") then
    SAFE_CHARS alphanumeric ++ lit " .-_"
  else
    SAFE_CHARS alphanumeric ++ SAFE_CHARS basic_punctuation
    ++ SAFE_CHARS whitespace.

Definition _whitelist_filter (data : str) (context : str) : str :=
  keep_only (allowed context) data.

Definition sanitize_input (input_data : str) (context : str) (strict : bool) : str :=
  match input_data with
  | [] => []
  | _ =>
      let sanitized := _normalize_encoding input_data in
      let sanitized :=
        if str_eqb context (lit "html") then _sanitize_html sanitized strict
        else if str_eqb context (lit "sql") then _sanitize_sql sanitized strict
        else if str_eqb context (lit "path") then _sanitize_path sanitized strict
        else if str_eqb context (lit "command") then _sanitize_command sanitized strict
        else _sanitize_general sanitized strict in
      if strict then _whitelist_filter sanitized context else sanitized
  end.

(** The report of [validate_input].  [reduction_ratio] is the exact
    quotient; Python rounds it to a float when the input is not empty. *)
Record report := {
  is_safe : bool;
  threats_found : list str;
  sanitized_data : str;
  original_length : nat;
  sanitized_length : nat;
  context : str;
  reduction_ratio : Q
}.

(** [for category, patterns in self.compiled_patterns.items(): for
    pattern in patterns: if pattern.search(data): threats.append(...)] *)
Definition scan_threats (data : str) : list str :=
  flat_map
    (fun entry =>
       flat_map
         (fun p =>
            if search T p data
            then [category_name (fst entry) ++ lit ": " ++ pattern p]
            else [])
         (snd entry))
    compiled_patterns.

Definition validate_input (data : str) (context : str) : report :=
  let threats := scan_threats data in
  let sanitized := sanitize_input data context true in
  {| is_safe := Nat.eqb (List.length threats) 0;
     threats_found := threats;
     sanitized_data := sanitized;
     original_length := List.length data;
     sanitized_length := List.length sanitized;
     context := context;
     reduction_ratio :=
       if Nat.ltb 0 (List.length data)
       then Qmake (Z.of_nat (List.length data) - Z.of_nat (List.length sanitized))
                  (Pos.of_nat (List.length data))
       else 0%Q |}.

(** The default values of the optional arguments: [context='general'],
    [strict=True]. *)
Definition context_or_default (context : option str) : str :=
  match context with Some c => c | None => lit "general" end.

Definition strict_or_default (strict : option bool) : bool :=
  match strict with Some b => b | None => true end.

End SecuritySanitizer.

(** ** The exception of [html.unescape]

    [int] raises [ValueError] on a decimal string of more than
    [sys.int_info.default_max_str_digits] = 4300 digits (leading zeros
    count; a base that is a power of two has no limit).  [html.unescape]
    calls it on every numeric character reference, and
    [_normalize_encoding] calls [html.unescape] outside its [try], so the
    exception reaches the callers of [sanitize_input] and
    [validate_input].

    The functions above give the value that is returned when nothing is
    raised.  The functions of this section follow the same code with the
    exception written out: [None] stands for the [ValueError] that
    propagates, [Some v] for a return of [v]. *)

Definition MAX_STR_DIGITS : nat := 4300.

Definition int_checked (base : N) (s : str) : option N :=
  if (base =? 10) && Nat.ltb MAX_STR_DIGITS (List.length s) then None
  else Some (int_of base s).

Section Raising.

Variable T : py_tables.

(** [_replace_charref], with the exception of [int]. *)
Definition replace_charref_checked (s : str) : option str :=
  match s with
  | 35 :: r =>
      let num :=
        match r with
        | x :: r' =>
            if (x =? 120) || (x =? 88)
            then int_checked 16 (rstrip_semicolon r')
            else int_checked 10 (rstrip_semicolon r)
        | [] => Some 0
        end in
      match num with
      | None => None
      | Some num =>
          match assoc num invalid_charrefs with
          | Some v => Some [v]
          | None =>
              if ((55296 <=? num) && (num <=? 57343)) || (1114111 <? num)
              then Some [REPLACEMENT]
              else if invalid_codepoint num then Some []
              else Some [num]
          end
      end
  | _ =>
      match html5 T s with
      | Some v => Some v
      | None =>
          match longest_entity T (List.length s - 1) s with
          | Some v => Some v
          | None => Some (38 :: s)
          end
      end
  end.

(** [_charref.sub(_replace_charref, s)]: the references are replaced
    from left to right and the first exception ends the call. *)
Fixpoint charref_sub_checked (skip : nat) (s : str) : option str :=
  match s with
  | [] => Some []
  | c :: s' =>
      match skip with
      | S n => charref_sub_checked n s'
      | O =>
          if c =? 38 then
            match charref_group s' with
            | Some n =>
                match replace_charref_checked (firstn n s') with
                | None => None
                | Some v =>
                    match charref_sub_checked n s' with
                    | None => None
                    | Some rest => Some (v ++ rest)
                    end
                end
            | None =>
                match charref_sub_checked O s' with
                | None => None
                | Some rest => Some (c :: rest)
                end
            end
          else
            match charref_sub_checked O s' with
            | None => None
            | Some rest => Some (c :: rest)
            end
      end
  end.

Definition html_unescape_checked (s : str) : option str :=
  if negb (contains 38 s) then Some s else charref_sub_checked O s.

(** [_normalize_encoding]: the [try] covers [unquote] only. *)
Definition _normalize_encoding_checked (data : str) : option str :=
  let current_data := fst (decode_passes try_unquote max_iterations [] data) in
  match html_unescape_checked current_data with
  | None => None
  | Some current_data => Some (utf8_roundtrip_ignore current_data)
  end.

Definition sanitize_input_checked (input_data : str) (context : str)
  (strict : bool) : option str :=
  match input_data with
  | [] => Some []
  | _ =>
      match _normalize_encoding_checked input_data with
      | None => None
      | Some sanitized =>
          let sanitized :=
            if str_eqb context (lit "html") then _sanitize_html T sanitized strict
            else if str_eqb context (lit "sql") then _sanitize_sql T sanitized strict
            else if str_eqb context (lit "path") then _sanitize_path T sanitized strict
            else if str_eqb context (lit "command")
                 then _sanitize_command T sanitized strict
            else _sanitize_general T sanitized strict in
          Some (if strict then _whitelist_filter sanitized context else sanitized)
      end
  end.

(** [validate_input]: the threats are collected first, then
    [sanitize_input] is called; when it raises no report is returned. *)
Definition validate_input_checked (data : str) (context : str) : option report :=
  let threats := scan_threats T data in
  match sanitize_input_checked data context true with
  | None => None
  | Some sanitized =>
      Some {| is_safe := Nat.eqb (List.length threats) 0;
              threats_found := threats;
              sanitized_data := sanitized;
              original_length := List.length data;
              sanitized_length := List.length sanitized;
              context := context;
              reduction_ratio :=
                if Nat.ltb 0 (List.length data)
                then Qmake (Z.of_nat (List.length data)
                            - Z.of_nat (List.length sanitized))
                           (Pos.of_nat (List.length data))
                else 0%Q |}
  end.

End Raising.

(** A decimal character reference of 4301 digits, and the same text
    with its first two characters percent-encoded. *)
Definition long_reference : str := lit "&#" ++ repeat 49 4301 ++ lit ";".

Definition long_reference_encoded : str := lit "%26%23" ++ repeat 49 4301.

(** ** The entries of the threat list *)

(** The compiled patterns with their category, in the order of the
    table. *)
Definition labelled_patterns : list (category * Pattern) :=
  flat_map (fun entry => map (pair (fst entry)) (snd entry)) compiled_patterns.

(** [f"{category}: {pattern.pattern}"] *)
Definition threat_label (e : category * Pattern) : str :=
  category_name (fst e) ++ lit ": " ++ pattern (snd e).

(** No string of the list occurs twice. *)
Fixpoint distinct (l : list str) : bool :=
  match l with
  | [] => true
  | s :: l' => negb (existsb (str_eqb s) l') && distinct l'
  end.

(** ** A static check on patterns

    [needs bad r] holds when every match of [r] spans a character of the
    set [bad]: a text without such characters cannot match. *)
Definition atom_within (bad : N -> bool) (a : atom) : bool :=
  match a with
  | Lit p => negb (is_ascii_letter p) && bad p
  | OneOf cs => forallb bad cs
  | _ => false
  end.

Fixpoint needs (bad : N -> bool) (r : regex) : bool :=
  match r with
  | Chr a | Plus a => atom_within bad a
  | Cat r1 r2 => needs bad r1 || needs bad r2
  | Alt r1 r2 => needs bad r1 && needs bad r2
  | _ => false
  end.

(** A text without characters of [bad], and a continuation that fails
    on every such text. *)
Definition clean (bad : N -> bool) (s : str) : Prop :=
  Forall (fun c => bad c = false) s.

Definition fails_on_clean (bad : N -> bool) (k : cont) : Prop :=
  forall prev s, clean bad s -> k prev s = None.

(** The characters the strict path transform keeps. *)
Definition path_safe_chars : list N := SAFE_CHARS alphanumeric ++ lit ".-_".

(** The characters one of which every path traversal pattern needs:
    slash, backslash and percent. *)
Definition path_marks (c : N) : bool := mem c [47; 92; 37].

(** ** Notions used to state further properties *)

(** [a] is [b] with some characters left out. *)
Inductive subseq : str -> str -> Prop :=
| subseq_nil : subseq [] []
| subseq_keep (c : N) (a b : str) : subseq a b -> subseq (c :: a) (c :: b)
| subseq_drop (c : N) (a b : str) : subseq a b -> subseq a (c :: b).

(** A static check: every match of [r] spans at least one character. *)
Fixpoint consumes (r : regex) : bool :=
  match r with
  | Chr _ | Plus _ => true
  | Cat r1 r2 => consumes r1 || consumes r2
  | Alt r1 r2 => consumes r1 && consumes r2
  | _ => false
  end.

(** A continuation whose result is at least [d] characters shorter than
    the text it is given. *)
Definition cont_bound (d : nat) (k : cont) : Prop :=
  forall prev s rest,
    k prev s = Some rest -> (List.length rest + d <= List.length s)%nat.

(** Every occurrence of the character [q] in [s] is one of two adjacent
    occurrences: [s] reads as a sequence of pairs [qq] and of other
    characters. *)
Fixpoint paired (q : N) (s : str) : bool :=
  match s with
  | [] => true
  | c :: s' =>
      if c =? q then
        match s' with
        | c' :: s'' => (c' =? q) && paired q s''
        | [] => false
        end
      else paired q s'
  end.

(** All compiled patterns, in the order of the table. *)
Definition all_patterns : list Pattern :=
  List.concat (map snd compiled_patterns).

(** The characters of the first command injection pattern. *)
Definition shell_metacharacters : list N := lit ";&|`$(){}[]<>".

(** ** An excerpt of the runtime's data

    Used to evaluate the model on concrete inputs: the white space of
    Unicode and the case-insensitive matches of ASCII letters are
    complete; alphanumerics are those of Latin-1, Latin Extended and the
    IPA block, decimal digits a few common blocks, and the entity table
    holds a handful of entries. *)
Definition in_range (lo hi c : N) : bool := (lo <=? c) && (c <=? hi).

Definition excerpt_isspace (c : N) : bool :=
  mem c [133; 160; 5760; 8232; 8233; 8239; 8287; 12288] || in_range 8192 8202 c.

Definition excerpt_isdecimal (c : N) : bool :=
  in_range 1632 1641 c || in_range 1776 1785 c || in_range 2406 2415 c
  || in_range 65296 65305 c.

Definition excerpt_isalnum (c : N) : bool :=
  mem c [170; 178; 179; 181; 185; 186; 188; 189; 190]
  || in_range 192 214 c || in_range 216 246 c || in_range 248 687 c
  || excerpt_isdecimal c.

Definition excerpt_caseless (c p : N) : bool :=
  ((p =? 105) && ((c =? 304) || (c =? 305)))
  || ((p =? 107) && (c =? 8490))
  || ((p =? 115) && (c =? 383)).

Definition excerpt_html5 (name : str) : option str :=
  let table : list (str * str) :=
    [ (lit "amp", [38]); (lit "amp;", [38]); (lit "lt", [60]); (lit "lt;", [60]);
      (lit "gt", [62]); (lit "gt;", [62]); (lit "quot", [34]);
      (lit "quot;", [34]); (lit "apos;", [39]); (lit "nbsp", [160]);
      (lit "nbsp;", [160]); (lit "copy", [169]); (lit "copy;", [169]);
      (lit "not", [172]); (lit "not;", [172]); (lit "notin;", [8713]) ] in
  match find (fun e => str_eqb (fst e) name) table with
  | Some e => Some (snd e)
  | None => None
  end.

Definition tables_excerpt : py_tables :=
  {| uni_isspace := excerpt_isspace;
     uni_isdecimal := excerpt_isdecimal;
     uni_isalnum := excerpt_isalnum;
     uni_caseless := excerpt_caseless;
     html5 := excerpt_html5 |}.

(** * Properties *)

(** ** Strings and character sets *)

Lemma str_eqb_eq (a b : str) : str_eqb a b = true <-> a = b.
Proof.
  revert b; induction a as [|x a IH]; intros [|y b]; simpl;
    try (split; [discriminate | discriminate]); try tauto.
  rewrite andb_true_iff, N.eqb_eq, IH.
  split; [intros [-> ->]; reflexivity | intros E; injection E; auto].
Qed.

Lemma str_eqb_refl (a : str) : str_eqb a a = true.
Proof. apply str_eqb_eq; reflexivity. Qed.

Lemma str_eqb_neq (a b : str) : a <> b -> str_eqb a b = false.
Proof.
  intros H; destruct (str_eqb a b) eqn:E; [|reflexivity].
  apply str_eqb_eq in E; contradiction.
Qed.

Lemma mem_In (c : N) (l : list N) : mem c l = true <-> In c l.
Proof.
  unfold mem; rewrite existsb_exists; split.
  - intros (y & Hy & E); apply N.eqb_eq in E; subst; assumption.
  - intros H; exists c; split; [assumption | apply N.eqb_refl].
Qed.

Lemma mem_not_In (c : N) (l : list N) : mem c l = false <-> ~ In c l.
Proof.
  rewrite <- mem_In; destruct (mem c l); split; congruence.
Qed.

Lemma keep_only_within (chars : list N) (data : str) :
  Forall (fun c => In c chars) (keep_only chars data).
Proof.
  apply Forall_forall; intros c H.
  apply filter_In in H; destruct H as [_ H]; apply mem_In; exact H.
Qed.

Lemma keep_only_fixed (chars : list N) (data : str) :
  keep_only chars data = data <-> Forall (fun c => In c chars) data.
Proof.
  split.
  - intros E; rewrite <- E; apply keep_only_within.
  - induction 1 as [|c d Hc _ IH]; simpl; [reflexivity|].
    apply mem_In in Hc; rewrite Hc; f_equal; exact IH.
Qed.

Lemma keep_only_sub (chars : list N) (P : N -> Prop) (data : str) :
  Forall P data -> Forall P (keep_only chars data).
Proof.
  rewrite !Forall_forall; intros H c Hc.
  apply filter_In in Hc; apply H, Hc.
Qed.

(** ** The decoding loop, for any step function *)

Section DecodeLoop.

Variable dec : str -> option str.

Lemma decode_passes_same (n : nat) (cur : str) :
  decode_passes dec n cur cur = (cur, O).
Proof.
  destruct n; simpl; [reflexivity|].
  rewrite str_eqb_refl; reflexivity.
Qed.

Lemma decode_passes_bound (n : nat) :
  forall prev cur, (snd (decode_passes dec n prev cur) <= n)%nat.
Proof.
  induction n as [|n IH]; intros prev cur; simpl; [lia|].
  destruct (str_eqb prev cur); simpl; [lia|].
  destruct (dec cur) as [next|]; simpl; [|lia].
  specialize (IH cur next).
  destruct (decode_passes dec n cur next); simpl in *; lia.
Qed.

Lemma decode_passes_result (n : nat) :
  forall prev cur,
    exists m,
      passes dec m cur = Some (fst (decode_passes dec n prev cur))
      /\ (m = snd (decode_passes dec n prev cur)
          \/ (S m = snd (decode_passes dec n prev cur)
              /\ dec (fst (decode_passes dec n prev cur)) = None)).
Proof.
  induction n as [|n IH]; intros prev cur; simpl.
  - exists O; split; [reflexivity|left; reflexivity].
  - destruct (str_eqb prev cur); simpl.
    + exists O; split; [reflexivity|left; reflexivity].
    + destruct (dec cur) as [next|] eqn:E; simpl.
      * destruct (IH cur next) as (m & Hm & Hc).
        destruct (decode_passes dec n cur next) as [r c]; simpl in *.
        exists (S m); simpl; rewrite E; split; [exact Hm|].
        destruct Hc as [->|[<- Hr]]; [left; reflexivity|right; split; auto].
      * exists O; split; [reflexivity|right; split; [reflexivity|exact E]].
Qed.

Lemma decode_passes_stop (n : nat) :
  forall prev cur,
    (snd (decode_passes dec n prev cur) < n)%nat ->
    prev = cur
    \/ dec (fst (decode_passes dec n prev cur)) = None
    \/ dec (fst (decode_passes dec n prev cur))
       = Some (fst (decode_passes dec n prev cur)).
Proof.
  induction n as [|n IH]; intros prev cur; simpl; [lia|].
  destruct (str_eqb prev cur) eqn:Q; simpl.
  - intros _; left; apply str_eqb_eq, Q.
  - destruct (dec cur) as [next|] eqn:E; simpl; [|intros _; right; left; exact E].
    specialize (IH cur next).
    destruct (decode_passes dec n cur next) as [r c] eqn:R; simpl in *.
    intros H; destruct IH as [->|[Hr|Hr]]; [lia| |right; left; exact Hr|right; right; exact Hr].
    rewrite decode_passes_same in R; injection R as <- <-.
    right; right; exact E.
Qed.

Lemma decode_passes_early (n : nat) :
  forall prev cur k d,
    passes dec k cur = Some d -> dec d = Some d ->
    (snd (decode_passes dec n prev cur) <= S k)%nat.
Proof.
  induction n as [|n IH]; intros prev cur k d Hk Hd; simpl; [lia|].
  destruct (str_eqb prev cur); simpl; [lia|].
  destruct (dec cur) as [next|] eqn:E; simpl; [|lia].
  destruct k as [|k]; simpl in Hk.
  - injection Hk as ->. rewrite Hd in E; injection E as <-.
    rewrite decode_passes_same; simpl; lia.
  - rewrite E in Hk. specialize (IH cur next k d Hk Hd).
    destruct (decode_passes dec n cur next); simpl in *; lia.
Qed.

End DecodeLoop.

(** ** Texts on which a pattern cannot match *)

Section NoMatch.

Variable T : py_tables.
Variable bad : N -> bool.

Lemma atom_within_sound (ic da : bool) (a : atom) (c : N) :
  atom_within bad a = true -> atom_match T ic da a c = true -> bad c = true.
Proof.
  destruct a as [p| |cs|cs| | |]; simpl; try discriminate.
  - rewrite andb_true_iff, negb_true_iff; intros [Hl Hb].
    unfold lit_match; rewrite Hl, andb_false_r.
    intros E; apply N.eqb_eq in E; subst; exact Hb.
  - intros Hall Hm; apply mem_In in Hm.
    rewrite forallb_forall in Hall; apply Hall, Hm.
Qed.

Lemma star_greedy_fails (test : N -> bool) (k : cont) :
  fails_on_clean bad k -> fails_on_clean bad (star_greedy test k).
Proof.
  intros Hk prev s; revert prev.
  induction s as [|c s IH]; intros prev Hs; simpl; [apply Hk, Hs|].
  destruct (test c); [|apply Hk, Hs].
  rewrite IH by (inversion Hs; assumption).
  apply Hk, Hs.
Qed.

Lemma star_lazy_fails (test : N -> bool) (k : cont) :
  fails_on_clean bad k -> fails_on_clean bad (star_lazy test k).
Proof.
  intros Hk prev s; revert prev.
  induction s as [|c s IH]; intros prev Hs; simpl; rewrite (Hk _ _ Hs);
    [reflexivity|].
  destruct (test c); [|reflexivity].
  apply IH; inversion Hs; assumption.
Qed.

Lemma rmatch_fails (ic da : bool) (r : regex) :
  forall k, fails_on_clean bad k -> fails_on_clean bad (rmatch T ic da r k).
Proof.
  induction r as [|a|a|a|a| |r1 IH1 r2 IH2|r1 IH1 r2 IH2];
    intros k Hk prev s Hs; simpl.
  - apply Hk, Hs.
  - destruct s as [|c s]; [reflexivity|].
    destruct (atom_match T ic da a c); [|reflexivity].
    apply Hk; inversion Hs; assumption.
  - apply star_greedy_fails; assumption.
  - destruct s as [|c s]; [reflexivity|].
    destruct (atom_match T ic da a c); [|reflexivity].
    apply star_greedy_fails; [assumption|inversion Hs; assumption].
  - apply star_lazy_fails; assumption.
  - destruct (xorb _ _); [apply Hk, Hs|reflexivity].
  - apply IH1; [|exact Hs]. apply IH2, Hk.
  - rewrite (IH1 k Hk prev s Hs). apply IH2; assumption.
Qed.

Lemma rmatch_needs (ic da : bool) (r : regex) :
  needs bad r = true -> forall k, fails_on_clean bad (rmatch T ic da r k).
Proof.
  induction r as [|a|a|a|a| |r1 IH1 r2 IH2|r1 IH1 r2 IH2];
    simpl; try discriminate; intros Hn k prev s Hs.
  - destruct s as [|c s]; [reflexivity|].
    destruct (atom_match T ic da a c) eqn:E; [|reflexivity].
    apply (atom_within_sound ic da a c Hn) in E.
    inversion Hs; congruence.
  - destruct s as [|c s]; [reflexivity|].
    destruct (atom_match T ic da a c) eqn:E; [|reflexivity].
    apply (atom_within_sound ic da a c Hn) in E.
    inversion Hs; congruence.
  - apply orb_true_iff in Hn; destruct Hn as [Hn|Hn].
    + apply IH1; assumption.
    + apply rmatch_fails; [|exact Hs]. apply IH2, Hn.
  - apply andb_true_iff in Hn; destruct Hn as [Hn1 Hn2].
    rewrite (IH1 Hn1 k prev s Hs). apply IH2; assumption.
Qed.

Lemma match_here_needs (p : Pattern) (prev : option N) (s : str) :
  needs bad (prog p) = true -> clean bad s -> match_here T p prev s = None.
Proof.
  intros Hn Hs; unfold match_here.
  rewrite (rmatch_needs _ _ _ Hn _ prev s Hs); reflexivity.
Qed.

Lemma sub_from_clean (p : Pattern) (s : str) :
  needs bad (prog p) = true ->
  forall prev, clean bad s -> sub_from T p O prev s = s.
Proof.
  intros Hn; induction s as [|c s IH]; intros prev Hs; simpl; [reflexivity|].
  rewrite (match_here_needs p prev (c :: s) Hn Hs).
  f_equal; apply IH; inversion Hs; assumption.
Qed.

Lemma remove_all_clean (ps : list Pattern) (s : str) :
  forallb (fun p => needs bad (prog p)) ps = true ->
  clean bad s -> remove_all T ps s = s.
Proof.
  unfold remove_all; induction ps as [|p ps IH]; simpl; intros H Hs;
    [reflexivity|].
  apply andb_true_iff in H; destruct H as [Hp Hps].
  unfold sub_empty at 2; rewrite (sub_from_clean p s Hp None Hs).
  apply IH; assumption.
Qed.

End NoMatch.

(** ** Texts the normalizer leaves alone *)

Lemma Forall_In_forallb (l : list N) (P : N -> bool) (s : str) :
  forallb P l = true ->
  Forall (fun c => In c l) s -> Forall (fun c => P c = true) s.
Proof.
  intros H; rewrite forallb_forall in H.
  apply Forall_impl; exact H.
Qed.

Lemma not_contains (x : N) (s : str) :
  Forall (fun c => negb (c =? x) = true) s -> contains x s = false.
Proof.
  intros H; apply mem_not_In; intros Hin.
  rewrite Forall_forall in H; specialize (H x Hin).
  rewrite N.eqb_refl in H; discriminate.
Qed.

Lemma filter_all {A : Type} (P : A -> bool) (l : list A) :
  Forall (fun c => P c = true) l -> filter P l = l.
Proof.
  induction 1 as [|c l Hc _ IH]; simpl; [reflexivity|].
  rewrite Hc, IH; reflexivity.
Qed.

Lemma unquote_without_percent (s : str) : contains 37 s = false -> unquote s = s.
Proof. intros H; unfold unquote; rewrite H; reflexivity. Qed.

Lemma html_unescape_without_ampersand (T : py_tables) (s : str) :
  contains 38 s = false -> html_unescape T s = s.
Proof. intros H; unfold html_unescape; rewrite H; reflexivity. Qed.

Lemma normalize_plain (T : py_tables) (s : str) :
  contains 37 s = false -> contains 38 s = false ->
  Forall (fun c => negb (is_surrogate c) = true) s ->
  _normalize_encoding T s = s.
Proof.
  intros H37 H38 Hs; unfold _normalize_encoding.
  assert (E : fst (decode_passes try_unquote max_iterations [] s) = s).
  { destruct s as [|c s]; [reflexivity|].
    change (decode_passes try_unquote max_iterations [] (c :: s))
      with (let (r, calls) :=
              decode_passes try_unquote 4 (c :: s) (unquote (c :: s)) in
            (r, S calls)).
    rewrite (unquote_without_percent _ H37), decode_passes_same.
    reflexivity. }
  rewrite E, (html_unescape_without_ampersand T s H38).
  apply filter_all, Hs.
Qed.

(** ** The UTF-8 round trip of the normalizer *)

Lemma andb_leb_false (a b c d : N) :
  (a <=? b) && (c <=? d) = false -> b < a \/ d < c.
Proof.
  intros H; apply andb_false_iff in H; destruct H as [H|H];
    apply N.leb_gt in H; [left|right]; exact H.
Qed.

Ltac bool_hyps :=
  repeat match goal with
         | H : (_ && _) = true |- _ => apply andb_true_iff in H; destruct H
         | H : (_ && _) = false |- _ => apply andb_leb_false in H
         | H : (_ <? _) = true |- _ => apply N.ltb_lt in H
         | H : (_ <? _) = false |- _ => apply N.ltb_ge in H
         | H : (_ <=? _) = true |- _ => apply N.leb_le in H
         | H : (_ <=? _) = false |- _ => apply N.leb_gt in H
         | H : (_ =? _) = true |- _ => apply N.eqb_eq in H
         | H : (_ =? _) = false |- _ => apply N.eqb_neq in H
         end.

Ltac decide_cond b :=
  match b with
  | _ <? _ =>
      first [ replace b with true by (symmetry; apply N.ltb_lt; lia)
            | replace b with false by (symmetry; apply N.ltb_ge; lia) ]
  | _ =? _ =>
      first [ replace b with true by (symmetry; apply N.eqb_eq; lia)
            | replace b with false by (symmetry; apply N.eqb_neq; lia) ]
  | (_ <=? _) && (_ <=? _) =>
      replace b with true
        by (symmetry; apply andb_true_iff; split; apply N.leb_le; lia)
  end.

Ltac split_ifs :=
  repeat match goal with
         | |- context [if ?b then _ else _] =>
             first [ decide_cond b
                   | let E := fresh "E" in destruct b eqn:E; bool_hyps; try lia ]
         end.

(** Names the quotient and the remainder of [c] by 64. *)
Ltac by64 c :=
  let q := fresh "q" in
  let r := fresh "r" in
  let Hq := fresh "Hq" in
  let Hr := fresh "Hr" in
  pose proof (N.div_mod c 64 ltac:(discriminate)) as Hq;
  pose proof (N.mod_lt c 64 ltac:(discriminate)) as Hr;
  set (q := c / 64) in *; set (r := c mod 64) in *;
  clearbody q r.

Ltac decode_step := cbn [map app utf8_decode]; unfold utf8_start; split_ifs.

Lemma utf8_decode_encoded (c : N) (rest : list (N + N)) :
  c <= 1114111 ->
  utf8_decode None (map inl (utf8_encode_char c) ++ rest)
  = (if is_surrogate c then [] else [Some c]) ++ utf8_decode None rest.
Proof.
  intros Hc. unfold utf8_encode_char, is_surrogate.
  destruct (c <? 128) eqn:E1; bool_hyps.
  - decode_step. reflexivity.
  - destruct (c <? 2048) eqn:E2; bool_hyps.
    + by64 c. do 2 decode_step.
      cbn [app]; do 2 f_equal; lia.
    + destruct ((55296 <=? c) && (c <=? 57343)) eqn:E3; [reflexivity|].
      destruct (c <? 65536) eqn:E4; bool_hyps.
      * by64 c. by64 q. do 3 decode_step;
          cbn [app]; try (do 2 f_equal; lia).
      * by64 c. by64 q. by64 q0. do 4 decode_step;
          cbn [app]; do 2 f_equal; lia.
Qed.

Lemma utf8_decode_encode (s : str) :
  Forall (fun c => c <= 1114111) s ->
  utf8_decode None (map inl (utf8_encode_ignore s))
  = map Some (utf8_roundtrip_ignore s).
Proof.
  induction 1 as [|c s Hc _ IH]; [reflexivity|].
  unfold utf8_encode_ignore in *; simpl flat_map.
  rewrite map_app, (utf8_decode_encoded c _ Hc), IH.
  unfold utf8_roundtrip_ignore; simpl filter.
  destruct (is_surrogate c); reflexivity.
Qed.

(** X12: on a Python string (code points up to U+10FFFF), encoding with
    [errors='ignore'] and decoding strictly raises nothing and returns
    the string without its surrogates. *)
Lemma utf8_roundtrip (s : str) :
  Forall (fun c => c <= 1114111) s ->
  utf8_decode_strict (utf8_encode_ignore s) = Some (utf8_roundtrip_ignore s).
Proof.
  intros H; unfold utf8_decode_strict; rewrite (utf8_decode_encode s H).
  induction (utf8_roundtrip_ignore s) as [|c l IH]; simpl; [reflexivity|].
  rewrite IH; reflexivity.
Qed.

(** * The exception of [html.unescape] *)

Lemma rstrip_semicolon_length (s : str) :
  (List.length (rstrip_semicolon s) <= List.length s)%nat.
Proof.
  unfold rstrip_semicolon; induction s as [|c s IH]; simpl; [lia|].
  destruct (fold_right _ [] s) as [|a l]; simpl in *.
  - destruct (c =? 59); simpl; lia.
  - lia.
Qed.

Lemma int_checked_cases (base : N) (s : str) :
  int_checked base s = Some (int_of base s)
  \/ (int_checked base s = None /\ (MAX_STR_DIGITS < List.length s)%nat).
Proof.
  unfold int_checked.
  destruct (base =? 10); simpl; [|left; reflexivity].
  destruct (Nat.ltb MAX_STR_DIGITS (List.length s)) eqn:E; [|left; reflexivity].
  right; split; [reflexivity|apply Nat.ltb_lt, E].
Qed.

Section Checked.

Variable T : py_tables.

Ltac named_reference :=
  cbn [replace_charref_checked replace_charref];
  left;
  repeat match goal with
         | |- context [match ?x with Some _ => _ | None => _ end] => destruct x
         end;
  reflexivity.

(** A reference either raises, and then it is longer than 4300
    characters, or is replaced as [replace_charref] says. *)
Lemma replace_charref_checked_cases (s : str) :
  replace_charref_checked T s = Some (replace_charref T s)
  \/ (replace_charref_checked T s = None
      /\ (MAX_STR_DIGITS < List.length s)%nat).
Proof.
  destruct s as [|c r]; [named_reference|].
  destruct c as [|p]; [named_reference|].
  destruct p as [p|p|]; [|named_reference|named_reference].
  destruct p as [p|p|]; [|named_reference|named_reference].
  destruct p as [p|p|]; [named_reference| |named_reference].
  destruct p as [p|p|]; [named_reference| |named_reference].
  destruct p as [p|p|]; [named_reference| |named_reference].
  destruct p as [p|p|]; [named_reference|named_reference|].
  cbn [replace_charref_checked replace_charref].
  assert (F : forall num : N,
             match assoc num invalid_charrefs with
             | Some v => Some [v]
             | None =>
                 if ((55296 <=? num) && (num <=? 57343)) || (1114111 <? num)
                 then Some [REPLACEMENT]
                 else if invalid_codepoint num then Some [] else Some [num]
             end
             = Some (match assoc num invalid_charrefs with
                     | Some v => [v]
                     | None =>
                         if ((55296 <=? num) && (num <=? 57343)) || (1114111 <? num)
                         then [REPLACEMENT]
                         else if invalid_codepoint num then [] else [num]
                     end)).
  { intros num; destruct (assoc num invalid_charrefs); [reflexivity|].
    destruct (_ || _); [reflexivity|].
    destruct (invalid_codepoint num); reflexivity. }
  destruct r as [|x r']; [left; apply F|].
  destruct ((x =? 120) || (x =? 88)).
  - destruct (int_checked_cases 16 (rstrip_semicolon r')) as [E|[E H]];
      rewrite E; [left; apply F|right; split; [reflexivity|]].
    pose proof (rstrip_semicolon_length r'); cbn [List.length] in *; lia.
  - destruct (int_checked_cases 10 (rstrip_semicolon (x :: r'))) as [E|[E H]];
      rewrite E; [left; apply F|right; split; [reflexivity|]].
    pose proof (rstrip_semicolon_length (x :: r')); cbn [List.length] in *; lia.
Qed.

Lemma charref_sub_checked_cases (s : str) :
  forall skip,
    charref_sub_checked T skip s = Some (charref_sub T skip s)
    \/ (charref_sub_checked T skip s = None
        /\ (MAX_STR_DIGITS < List.length s)%nat).
Proof.
  induction s as [|c s IH]; intros skip; [left; reflexivity|].
  cbn [charref_sub_checked charref_sub List.length].
  assert (K : forall n, charref_sub_checked T n s = Some (charref_sub T n s)
                        \/ (charref_sub_checked T n s = None
                            /\ (MAX_STR_DIGITS < S (List.length s))%nat)).
  { intros n; destruct (IH n) as [E|[E H]]; [left; exact E|right; split; [exact E|lia]]. }
  destruct skip as [|n]; [|apply K].
  assert (C : match charref_sub_checked T O s with
              | None => None
              | Some rest => Some (c :: rest)
              end = Some (c :: charref_sub T O s)
              \/ (match charref_sub_checked T O s with
                  | None => None
                  | Some rest => Some (c :: rest)
                  end = None /\ (MAX_STR_DIGITS < S (List.length s))%nat)).
  { destruct (K O) as [->|[-> H]]; [left; reflexivity|right; split; [reflexivity|exact H]]. }
  destruct (c =? 38); [|exact C].
  destruct (charref_group s) as [n|]; [|exact C].
  destruct (replace_charref_checked_cases (firstn n s)) as [->|[-> H]].
  - destruct (K n) as [->|[-> H]]; [left; reflexivity|right; split; [reflexivity|exact H]].
  - right; split; [reflexivity|].
    rewrite length_firstn in H; lia.
Qed.

Lemma html_unescape_checked_cases (s : str) :
  html_unescape_checked T s = Some (html_unescape T s)
  \/ (html_unescape_checked T s = None
      /\ (MAX_STR_DIGITS < List.length s)%nat).
Proof.
  unfold html_unescape_checked, html_unescape.
  destruct (negb (contains 38 s)); [left; reflexivity|].
  apply charref_sub_checked_cases.
Qed.

End Checked.

(** ** Percent-decoding does not lengthen a text *)

Lemma utf8_start_length (b : N) (rec : option utf8_state -> list (option N))
  (n : nat) :
  (forall st, (List.length (rec st)
               <= n + match st with Some _ => 1 | None => 0 end)%nat) ->
  (List.length (utf8_start b rec) <= S n)%nat.
Proof.
  intros H; unfold utf8_start.
  pose proof (H None) as H0; simpl in H0.
  repeat match goal with
         | |- context [if ?c then _ else _] => destruct c
         end;
    cbn [List.length];
    try lia;
    match goal with
    | |- (List.length (rec (Some ?s)) <= _)%nat =>
        specialize (H (Some s)); cbv beta iota in H; lia
    end.
Qed.

Lemma utf8_decode_length (items : list (N + N)) :
  forall st,
    (List.length (utf8_decode st items)
     <= List.length items + match st with Some _ => 1 | None => 0 end)%nat.
Proof.
  induction items as [|[b|c] rest IH]; intros st.
  - destruct st; simpl; lia.
  - cbn [utf8_decode List.length].
    pose proof (utf8_start_length b (fun st' => utf8_decode st' rest)
                  (List.length rest) IH) as S.
    destruct st as [[[[acc more] lo] hi]|]; [|lia].
    pose proof (IH None) as IH0; cbv beta iota in IH0.
    destruct ((lo <=? b) && (b <=? hi)).
    + destruct more as [|more'].
      * cbn [List.length]; lia.
      * specialize (IH (Some (acc * 64 + (b - 128), more', 128, 191)));
          cbv beta iota in IH; lia.
    + cbn [List.length]; lia.
  - cbn [utf8_decode List.length].
    specialize (IH None); cbv beta iota in IH.
    destruct st; cbn [List.length]; lia.
Qed.

Lemma unquote_items_length (n : nat) :
  forall s, (List.length s <= n)%nat ->
            (List.length (unquote_items s) <= List.length s)%nat.
Proof.
  induction n as [|n IH]; intros s Hs.
  - destruct s; [simpl; lia|simpl in Hs; lia].
  - destruct s as [|c s']; [simpl; lia|].
    cbn [List.length] in Hs.
    assert (A : (List.length (unquote_items s') <= List.length s')%nat)
      by (apply IH; lia).
    cbn [unquote_items].
    destruct (c =? 37).
    + destruct s' as [|h1 [|h2 rest]]; try (cbn [List.length] in *; lia).
      destruct (hex_value h1), (hex_value h2);
        try (cbn [List.length] in *; lia).
      cbn [List.length] in *.
      assert (List.length (unquote_items rest) <= List.length rest)%nat
        by (apply IH; lia).
      lia.
    + destruct (c <? 128); cbn [List.length]; lia.
Qed.

Lemma unquote_length (s : str) :
  (List.length (unquote s) <= List.length s)%nat.
Proof.
  unfold unquote; destruct (negb (contains 37 s)); [lia|].
  unfold utf8_decode_replace; rewrite length_map.
  pose proof (utf8_decode_length (unquote_items s) None) as H; cbv beta iota in H.
  pose proof (unquote_items_length (List.length s) s (Nat.le_refl _)).
  lia.
Qed.

Lemma decode_passes_length (dec : str -> option str) :
  (forall s v, dec s = Some v -> (List.length v <= List.length s)%nat) ->
  forall n prev cur,
    (List.length (fst (decode_passes dec n prev cur)) <= List.length cur)%nat.
Proof.
  intros Hd; induction n as [|n IH]; intros prev cur; simpl; [lia|].
  destruct (str_eqb prev cur); simpl; [lia|].
  destruct (dec cur) as [next|] eqn:E; simpl; [|lia].
  specialize (IH cur next); apply Hd in E.
  destruct (decode_passes dec n cur next); simpl in *; lia.
Qed.

Lemma percent_decoded_length (data : str) :
  (List.length (fst (decode_passes try_unquote max_iterations [] data))
   <= List.length data)%nat.
Proof.
  apply decode_passes_length.
  intros s v H; unfold try_unquote in H; injection H as <-.
  apply unquote_length.
Qed.

(** ** When the pipeline raises *)

Section CheckedPipeline.

Variable T : py_tables.

Lemma normalize_checked_cases (data : str) :
  _normalize_encoding_checked T data = Some (_normalize_encoding T data)
  \/ (_normalize_encoding_checked T data = None
      /\ (MAX_STR_DIGITS < List.length data)%nat).
Proof.
  unfold _normalize_encoding_checked, _normalize_encoding.
  pose proof (percent_decoded_length data) as L.
  destruct (html_unescape_checked_cases T
              (fst (decode_passes try_unquote max_iterations [] data)))
    as [->|[-> H]]; [left; reflexivity|right; split; [reflexivity|lia]].
Qed.

Lemma sanitize_checked_unfold (x ctx : str) (strict : bool) :
  sanitize_input_checked T x ctx strict
  = match x with
    | [] => Some []
    | _ =>
        match _normalize_encoding_checked T x with
        | None => None
        | Some _ => Some (sanitize_input T x ctx strict)
        end
    end.
Proof.
  destruct x as [|c x]; [reflexivity|].
  unfold sanitize_input_checked, sanitize_input.
  destruct (normalize_checked_cases (c :: x)) as [->|[-> _]]; reflexivity.
Qed.

Lemma sanitize_checked_cases (x ctx : str) (strict : bool) :
  sanitize_input_checked T x ctx strict = Some (sanitize_input T x ctx strict)
  \/ (sanitize_input_checked T x ctx strict = None
      /\ (MAX_STR_DIGITS < List.length x)%nat).
Proof.
  rewrite sanitize_checked_unfold.
  destruct x as [|c x]; [left; reflexivity|].
  destruct (normalize_checked_cases (c :: x)) as [->|[-> H]];
    [left; reflexivity|right; split; [reflexivity|exact H]].
Qed.

Lemma validate_checked_unfold (x ctx : str) :
  validate_input_checked T x ctx
  = match sanitize_input_checked T x ctx true with
    | None => None
    | Some _ => Some (validate_input T x ctx)
    end.
Proof.
  unfold validate_input_checked, validate_input.
  destruct (sanitize_checked_cases x ctx true) as [->|[-> _]]; reflexivity.
Qed.

Lemma validate_checked_cases (x ctx : str) :
  validate_input_checked T x ctx = Some (validate_input T x ctx)
  \/ (validate_input_checked T x ctx = None
      /\ (MAX_STR_DIGITS < List.length x)%nat).
Proof.
  rewrite validate_checked_unfold.
  destruct (sanitize_checked_cases x ctx true) as [->|[-> H]];
    [left; reflexivity|right; split; [reflexivity|exact H]].
Qed.

End CheckedPipeline.

(** The two long references raise in the normalizer. *)
Lemma long_reference_raises (T : py_tables) :
  _normalize_encoding_checked T long_reference = None.
Proof. vm_compute; reflexivity. Qed.

Lemma long_reference_encoded_raises (T : py_tables) :
  _normalize_encoding_checked T long_reference_encoded = None.
Proof. vm_compute; reflexivity. Qed.

Section Properties.

Variable T : py_tables.

(** ** The final whitelist *)

(** C1: in strict mode the output of [sanitize_input] only holds
    characters of the set [allowed] that [_whitelist_filter] computes for
    the context: alphanumeric, basic punctuation and white space for html
    and general (and any other context), alphanumeric, white space and
    the fixed punctuation subset for sql, alphanumeric and [.-_/] for
    path, alphanumeric and [ .-_] for command. *)
Theorem strict_output_within_whitelist :
  (forall x ctx : str,
      Forall (fun c => In c (allowed ctx)) (sanitize_input T x ctx true))
  /\ allowed (lit "html")
     = SAFE_CHARS alphanumeric ++ SAFE_CHARS basic_punctuation
       ++ SAFE_CHARS whitespace
  /\ allowed (lit "general")
     = SAFE_CHARS alphanumeric ++ SAFE_CHARS basic_punctuation
       ++ SAFE_CHARS whitespace
  /\ allowed (lit "sql")
     = SAFE_CHARS alphanumeric ++ SAFE_CHARS whitespace
       ++ (lit ".,!?;:()[]{}" ++ [34] ++ lit "'-_+=@")
  /\ allowed (lit "path") = SAFE_CHARS alphanumeric ++ lit ".-_/"
  /\ allowed (lit "command") = SAFE_CHARS alphanumeric ++ lit " .-_".
Proof.
  split; [|repeat split].
  intros x ctx; unfold sanitize_input.
  destruct x as [|c x]; [constructor|].
  unfold _whitelist_filter; apply keep_only_within.
Qed.

(** C9: the strict path transform keeps alphanumerics and [.-_] only, so
    no output of [sanitize_input] for the path context in strict mode
    holds a slash, although the path whitelist of the final filter
    allows it. *)
Theorem strict_path_output_has_no_slash :
  (forall x : str,
      Forall (fun c => c <> 47) (sanitize_input T x (lit "path") true))
  /\ (forall data : str,
         Forall (fun c => c <> 47) (_sanitize_path T data true))
  /\ In 47 (allowed (lit "path")).
Proof.
  assert (P : forall data, Forall (fun c => c <> 47) (_sanitize_path T data true)).
  { intros data; unfold _sanitize_path.
    eapply Forall_impl; [|apply keep_only_within].
    intros c Hc E; subst c; apply mem_In in Hc; vm_compute in Hc; discriminate. }
  split; [|split].
  - intros x; unfold sanitize_input.
    destruct x as [|c x]; [constructor|].
    change (str_eqb (lit "path") (lit "html")) with false.
    change (str_eqb (lit "path") (lit "sql")) with false.
    change (str_eqb (lit "path") (lit "path")) with true.
    cbv iota. unfold _whitelist_filter. apply keep_only_sub, P.
  - exact P.
  - apply mem_In; reflexivity.
Qed.

(** ** Empty input *)

(** C5: [sanitize_input] returns the empty string on the empty string
    for every context and both modes, and the report of [validate_input]
    on the empty string has a reduction ratio of 0 (the quotient is not
    formed) and says the input is safe. *)
Theorem empty_input :
  (forall (ctx : str) (strict : bool), sanitize_input T [] ctx strict = [])
  /\ (forall ctx : str,
         reduction_ratio (validate_input T [] ctx) = 0%Q
         /\ is_safe (validate_input T [] ctx) = true
         /\ threats_found (validate_input T [] ctx) = []
         /\ sanitized_data (validate_input T [] ctx) = []).
Proof.
  split; [reflexivity|].
  intros ctx; repeat split.
Qed.

(** ** The verdict of [validate_input] and the context *)

(** C10: the verdict and the list of threats of [validate_input] are the
    same for any two contexts: the scan runs every pattern of every
    category on the raw input and never reads the context. *)
Theorem verdict_independent_of_context :
  forall (x c1 c2 : str),
    is_safe (validate_input T x c1) = is_safe (validate_input T x c2)
    /\ threats_found (validate_input T x c1)
       = threats_found (validate_input T x c2)
    /\ threats_found (validate_input T x c1) = scan_threats T x.
Proof.
  intros x c1 c2; repeat split.
Qed.

(** ** Strict and non-strict HTML *)

Lemma sanitize_html_cases (x : str) (strict : bool) :
  sanitize_input T x (lit "html") strict
  = match x with
    | [] => []
    | _ =>
        let d := _sanitize_html T (_normalize_encoding T x) strict in
        if strict then _whitelist_filter d (lit "html") else d
    end.
Proof. destruct x; reflexivity. Qed.

(** C7 (amended): [_sanitize_html] does the same in both modes (it
    escapes everything), but over the whole pipeline strict mode still
    applies the final whitelist, which non-strict mode skips: the strict
    output is the whitelist filter of the non-strict output, and the two
    are equal exactly when the non-strict output only holds whitelisted
    characters. *)
Theorem html_strict_vs_nonstrict :
  (forall data : str, _sanitize_html T data false = _sanitize_html T data true)
  /\ (forall x : str,
         sanitize_input T x (lit "html") true
         = _whitelist_filter (sanitize_input T x (lit "html") false) (lit "html"))
  /\ (forall x : str,
         sanitize_input T x (lit "html") false
         = sanitize_input T x (lit "html") true
         <-> Forall (fun c => In c (allowed (lit "html")))
                    (sanitize_input T x (lit "html") false)).
Proof.
  assert (E : forall x, sanitize_input T x (lit "html") true
              = _whitelist_filter (sanitize_input T x (lit "html") false) (lit "html")).
  { intros x; rewrite !sanitize_html_cases; destruct x; reflexivity. }
  split; [reflexivity | split; [exact E|]].
  intros x; rewrite E; unfold _whitelist_filter.
  rewrite <- keep_only_fixed; split; intros H; symmetry; exact H.
Qed.

(** ** The characters of HTML markup *)

Lemma replace_char_absent (c old : N) (new data : str) :
  ~ In c new -> c = old \/ ~ In c data -> ~ In c (replace_char old new data).
Proof.
  intros Hnew Hc; unfold replace_char; rewrite in_flat_map.
  intros (a & Ha & Hin).
  destruct (a =? old) eqn:E.
  - contradiction.
  - destruct Hin as [<-|[]].
    destruct Hc as [->|Hc]; [rewrite N.eqb_refl in E; discriminate|].
    contradiction.
Qed.

Lemma html_escape_absent (c : N) (data : str) :
  In c [60; 62; 34; 39] -> ~ In c (html_escape data).
Proof.
  intros Hc; unfold html_escape.
  assert (A : forall s : string, mem c (lit s) = false -> ~ In c (lit s))
    by (intros s; apply mem_not_In).
  simpl in Hc; destruct Hc as [<-|[<-|[<-|[<-|[]]]]].
  - do 3 (apply replace_char_absent; [apply A; reflexivity|right]).
    apply replace_char_absent; [apply A; reflexivity|left; reflexivity].
  - do 2 (apply replace_char_absent; [apply A; reflexivity|right]).
    apply replace_char_absent; [apply A; reflexivity|left; reflexivity].
  - apply replace_char_absent; [apply A; reflexivity|right].
    apply replace_char_absent; [apply A; reflexivity|left; reflexivity].
  - apply replace_char_absent; [apply A; reflexivity|left; reflexivity].
Qed.

(** X1: in the html context, in both modes, the output holds none of
    the characters [<], [>], the double quote and the single quote: the
    transform escapes them and the whitelist only removes characters. *)
Theorem html_output_has_no_markup :
  forall (x : str) (strict : bool),
    Forall (fun c => mem c [60; 62; 34; 39] = false)
           (sanitize_input T x (lit "html") strict).
Proof.
  intros x strict.
  assert (E : forall d, Forall (fun c => mem c [60; 62; 34; 39] = false)
                               (_sanitize_html T d strict)).
  { intros d; apply Forall_forall; intros c Hc.
    apply mem_not_In; intros Hm; revert Hc.
    unfold _sanitize_html; destruct strict; apply html_escape_absent, Hm. }
  rewrite sanitize_html_cases; destruct x as [|c x]; [constructor|].
  cbv zeta; destruct strict; [apply keep_only_sub|]; apply E.
Qed.

(** ** Unknown contexts *)

(** C8: for a context that is none of html, sql, path and command (an
    absent context is the default, general), [sanitize_input] does what
    it does for the general context, in its result and in whether it
    raises: unless the input is empty, the patterns of all four
    categories are removed from the normalized text (xss, sql, path
    traversal, command injection, in this order) and, in strict mode,
    the general whitelist is applied.  The context itself causes no
    error, and the call returns on every input of at most 4300
    characters; but on a decimal character reference of 4301 digits the
    [ValueError] of [html.unescape] reaches the caller, whatever the
    context. *)
Theorem unknown_context_is_general :
  forall (x ctx : str) (strict : bool),
    ctx <> lit "html" -> ctx <> lit "sql" ->
    ctx <> lit "path" -> ctx <> lit "command" ->
    sanitize_input_checked T x ctx strict
    = sanitize_input_checked T x (lit "general") strict
    /\ sanitize_input_checked T x (context_or_default None) strict
       = sanitize_input_checked T x (lit "general") strict
    /\ sanitize_input_checked T x ctx strict
       = match x with
         | [] => Some []
         | _ =>
             match _normalize_encoding_checked T x with
             | None => None
             | Some normalized =>
                 let d :=
                   remove_all T (patterns_of command_injection)
                     (remove_all T (patterns_of path_traversal)
                        (remove_all T (patterns_of sql)
                           (remove_all T (patterns_of xss) normalized))) in
                 Some (if strict
                       then keep_only (SAFE_CHARS alphanumeric
                                       ++ SAFE_CHARS basic_punctuation
                                       ++ SAFE_CHARS whitespace) d
                       else d)
             end
         end
    /\ ((List.length x <= 4300)%nat ->
        sanitize_input_checked T x ctx strict
        = Some (sanitize_input T x (lit "general") strict))
    /\ sanitize_input_checked T long_reference ctx strict = None.
Proof.
  intros x ctx strict H1 H2 H3 H4.
  assert (E : sanitize_input_checked T x ctx strict
              = match x with
                | [] => Some []
                | _ =>
                    match _normalize_encoding_checked T x with
                    | None => None
                    | Some normalized =>
                        let d := _sanitize_general T normalized strict in
                        Some (if strict
                              then keep_only (allowed (lit "general")) d
                              else d)
                    end
                end).
  { unfold sanitize_input_checked, _whitelist_filter, allowed.
    rewrite !(str_eqb_neq _ _ H1), !(str_eqb_neq _ _ H2),
            !(str_eqb_neq _ _ H3), !(str_eqb_neq _ _ H4).
    reflexivity. }
  assert (G : sanitize_input_checked T x ctx strict
              = sanitize_input_checked T x (lit "general") strict).
  { rewrite E; destruct x; reflexivity. }
  split; [exact G|split; [reflexivity|split; [|split]]].
  - rewrite E; destruct x as [|c x]; [reflexivity|].
    destruct (_normalize_encoding_checked T (c :: x)); reflexivity.
  - intros L; rewrite G.
    destruct (sanitize_checked_cases T x (lit "general") strict) as [S|[_ S]];
      [exact S|unfold MAX_STR_DIGITS in S; lia].
  - rewrite sanitize_checked_unfold, long_reference_raises.
    destruct long_reference eqn:R; [vm_compute in R; discriminate R|reflexivity].
Qed.

(** ** The path example *)

(** C3 (amended): [sanitize_input("../../etc/passwd", "path", True)] is
    ["etcpasswd"]: the traversal segments are removed, and the strict
    path transform then drops the slash between [etc] and [passwd] as
    well. *)
Theorem path_example :
  sanitize_input T (lit "../../etc/passwd") (lit "path") true = lit "etcpasswd"
  /\ remove_all T (patterns_of path_traversal) (lit "../../etc/passwd")
     = lit "etc/passwd"
  /\ _sanitize_path T (lit "../../etc/passwd") true = lit "etcpasswd".
Proof. repeat split; vm_compute; reflexivity. Qed.

(** ** The verdict of [validate_input] *)

(** [search] succeeds exactly when the pattern matches at some position
    of the subject. *)
Lemma search_from_spec (p : Pattern) (s : str) :
  forall prev : option N,
    search_from T p prev s = true
    <-> exists pre post,
        s = pre ++ post /\ match_here T p (char_before prev pre) post <> None.
Proof.
  induction s as [|c s IH]; intros prev.
  - simpl. destruct (match_here T p prev []) eqn:E.
    + split; [intros _|reflexivity].
      exists [], []; split; [reflexivity|simpl; congruence].
    + split; [discriminate|].
      intros (pre & post & Hs & Hm).
      symmetry in Hs; apply app_eq_nil in Hs; destruct Hs; subst.
      simpl in Hm; contradiction.
  - simpl. destruct (match_here T p prev (c :: s)) eqn:E.
    + split; [intros _|reflexivity].
      exists [], (c :: s); split; [reflexivity|simpl; congruence].
    + rewrite IH; split.
      * intros (pre & post & Hs & Hm).
        exists (c :: pre), post; split; [simpl; congruence|exact Hm].
      * intros (pre & post & Hs & Hm).
        destruct pre as [|c' pre]; simpl in Hs.
        -- subst post; simpl in Hm; contradiction.
        -- injection Hs as -> ->. exists pre, post; split; [reflexivity|exact Hm].
Qed.

Lemma search_false_iff (p : Pattern) (x : str) :
  search T p x = false
  <-> forall pre post,
      x = pre ++ post -> match_here T p (char_before None pre) post = None.
Proof.
  unfold search; split.
  - intros H pre post Hx.
    destruct (match_here T p (char_before None pre) post) eqn:E; [|reflexivity].
    assert (S : search_from T p None x = true).
    { apply search_from_spec; exists pre, post; split; [exact Hx|congruence]. }
    congruence.
  - intros H. destruct (search_from T p None x) eqn:E; [|reflexivity].
    apply search_from_spec in E; destruct E as (pre & post & Hx & Hm).
    elim Hm; apply H, Hx.
Qed.

Lemma flat_map_nil {A B : Type} (f : A -> list B) (l : list A) :
  flat_map f l = [] <-> forall a, In a l -> f a = [].
Proof.
  induction l as [|a l IH]; simpl.
  - split; [intros _ a []|reflexivity].
  - split.
    + intros H; apply app_eq_nil in H; destruct H as [Ha Hl].
      intros b [<-|Hb]; [exact Ha|apply IH; assumption].
    + intros H; rewrite (H a (or_introl eq_refl)).
      simpl; apply IH; intros b Hb; apply H; right; exact Hb.
Qed.

Lemma scan_threats_nil (x : str) :
  scan_threats T x = []
  <-> forall cat ps p,
      In (cat, ps) compiled_patterns -> In p ps -> search T p x = false.
Proof.
  unfold scan_threats; rewrite flat_map_nil; split.
  - intros H cat ps p Hc Hp.
    specialize (H (cat, ps) Hc); simpl in H.
    rewrite flat_map_nil in H; specialize (H p Hp).
    destruct (search T p x); [discriminate|reflexivity].
  - intros H [cat ps] Hc; simpl.
    apply flat_map_nil; intros p Hp.
    rewrite (H cat ps p Hc Hp); reflexivity.
Qed.

(** C4: whenever [validate_input] returns a report, it says the input
    is safe exactly when no compiled pattern of any category matches at
    any position of the raw input (the context plays no part); it
    returns one on every input of at most 4300 characters, and for
    ["<script>x</script>"] in the html context the verdict is unsafe and
    the threats hold the entry of the first xss pattern.  It does not
    return one on every input: on the percent-encoded decimal reference
    of 4301 digits no pattern matches the raw text, yet the [ValueError]
    of [html.unescape] leaves [validate_input] without a report. *)
Theorem verdict_iff_no_pattern_matches :
  (forall (x ctx : str) (r : report),
      validate_input_checked T x ctx = Some r ->
      (is_safe r = true
       <-> forall cat ps p,
           In (cat, ps) compiled_patterns -> In p ps ->
           forall pre post,
             x = pre ++ post ->
             match_here T p (char_before None pre) post = None))
  /\ (forall (x ctx : str) (r : report),
         validate_input_checked T x ctx = Some r ->
         (is_safe r = true
          <-> forall cat ps p,
              In (cat, ps) compiled_patterns -> In p ps -> search T p x = false))
  /\ (forall x ctx : str,
         (List.length x <= 4300)%nat ->
         validate_input_checked T x ctx = Some (validate_input T x ctx))
  /\ (exists r : report,
         validate_input_checked T (lit "<script>x</script>") (lit "html") = Some r
         /\ is_safe r = false
         /\ In (category_name xss ++ lit ": " ++ lit "<script[^>]*>.*?</script>")
               (threats_found r))
  /\ (forall ctx : str,
         validate_input_checked T long_reference_encoded ctx = None)
  /\ (forall cat ps p,
         In (cat, ps) compiled_patterns -> In p ps ->
         search T p long_reference_encoded = false).
Proof.
  assert (S : forall (x ctx : str) (r : report),
             validate_input_checked T x ctx = Some r ->
             (is_safe r = true
              <-> forall cat ps p,
                  In (cat, ps) compiled_patterns -> In p ps ->
                  search T p x = false)).
  { intros x ctx r Hr.
    destruct (validate_checked_cases T x ctx) as [E|[E _]];
      rewrite E in Hr; [|discriminate Hr].
    injection Hr as <-; simpl.
    rewrite Nat.eqb_eq, length_zero_iff_nil; apply scan_threats_nil. }
  split; [|split; [exact S|split; [|split; [|split]]]].
  - intros x ctx r Hr; rewrite (S x ctx r Hr); split.
    + intros H cat ps p Hc Hp. apply search_false_iff, (H cat ps p Hc Hp).
    + intros H cat ps p Hc Hp. apply search_false_iff, (H cat ps p Hc Hp).
  - intros x ctx L.
    destruct (validate_checked_cases T x ctx) as [E|[_ E]];
      [exact E|unfold MAX_STR_DIGITS in E; lia].
  - exists (validate_input T (lit "<script>x</script>") (lit "html")).
    split; [vm_compute; reflexivity|split; [vm_compute; reflexivity|]].
    vm_compute; left; reflexivity.
  - intros ctx.
    rewrite validate_checked_unfold, sanitize_checked_unfold,
            long_reference_encoded_raises.
    destruct long_reference_encoded eqn:R;
      [vm_compute in R; discriminate R|reflexivity].
  - apply scan_threats_nil; vm_compute; reflexivity.
Qed.

(** ** The encoding normalizer *)

(** C6: the loop of [_normalize_encoding] calls the decoder at most 5
    times whatever the decoder does; its result is reached from the
    input by successful calls only, a failing call being the last one
    and leaving the result of the calls before it; when fewer than 5
    calls were made the loop stopped on an empty input, on a failure or
    on a call that changed nothing; and once a call changes nothing no
    further call is made.  An input with six layers of percent-encoding
    comes back with one layer left after exactly 5 calls, and
    [_normalize_encoding] returns on every input of at most 4300
    characters.  It does not return on every input: [html.unescape] is
    called outside the [try], and on a decimal character reference of
    4301 digits, which the loop passes on unchanged, its [ValueError]
    reaches the caller. *)
Theorem percent_decoding_is_bounded :
  forall (dec : str -> option str) (data : str),
    let run := decode_passes dec max_iterations [] data in
    (snd run <= 5)%nat
    /\ (exists m,
           passes dec m data = Some (fst run)
           /\ (m = snd run \/ (S m = snd run /\ dec (fst run) = None)))
    /\ ((snd run < 5)%nat ->
        data = [] \/ dec (fst run) = None \/ dec (fst run) = Some (fst run))
    /\ (forall k d,
           passes dec k data = Some d -> dec d = Some d ->
           (snd run <= S k)%nat)
    /\ _normalize_encoding_checked T data
       = match html_unescape_checked T
                 (fst (decode_passes try_unquote max_iterations [] data)) with
         | None => None
         | Some text => Some (utf8_roundtrip_ignore text)
         end
    /\ ((List.length data <= 4300)%nat ->
        _normalize_encoding_checked T data = Some (_normalize_encoding T data))
    /\ decode_passes try_unquote max_iterations [] (lit "%25252525252541")
       = (lit "%2541", 5%nat)
    /\ unquote (lit "%2541") = lit "%41"
    /\ _normalize_encoding_checked T (lit "%25252525252541") = Some (lit "%2541")
    /\ fst (decode_passes try_unquote max_iterations [] long_reference)
       = long_reference
    /\ _normalize_encoding_checked T long_reference = None.
Proof.
  intros dec data run; subst run.
  split; [apply (decode_passes_bound dec max_iterations)|].
  split; [apply decode_passes_result|].
  split.
  { intros H; apply decode_passes_stop in H.
    destruct H as [H|H]; [left; symmetry; exact H|right; exact H]. }
  split; [intros k d; apply decode_passes_early|].
  split; [reflexivity|].
  split.
  { intros L; destruct (normalize_checked_cases T data) as [E|[_ E]];
      [exact E|unfold MAX_STR_DIGITS in E; lia]. }
  repeat split; vm_compute; reflexivity.
Qed.

(** ** Idempotence *)

Lemma sanitize_path_cases (x : str) :
  sanitize_input T x (lit "path") true
  = match x with
    | [] => []
    | _ =>
        keep_only (allowed (lit "path"))
          (keep_only path_safe_chars
             (remove_all T (patterns_of path_traversal)
                (_normalize_encoding T x)))
    end.
Proof. destruct x; reflexivity. Qed.

Lemma strict_path_output_plain (x : str) :
  Forall (fun c => In c path_safe_chars) (sanitize_input T x (lit "path") true).
Proof.
  rewrite sanitize_path_cases; destruct x as [|c x]; [constructor|].
  apply keep_only_sub, keep_only_within.
Qed.

Lemma sanitize_path_plain (y : str) :
  Forall (fun c => In c path_safe_chars) y ->
  sanitize_input T y (lit "path") true = y.
Proof.
  intros Hy; rewrite sanitize_path_cases.
  destruct y as [|c y]; [reflexivity|].
  rewrite normalize_plain.
  - rewrite (remove_all_clean T path_marks).
    + assert (K : keep_only path_safe_chars (c :: y) = c :: y)
        by (apply keep_only_fixed, Hy).
      rewrite K. apply keep_only_fixed.
      eapply Forall_impl; [intros a Ha; apply mem_In; exact Ha|].
      apply (Forall_In_forallb path_safe_chars); [reflexivity|exact Hy].
    + reflexivity.
    + eapply Forall_impl; [intros a Ha; apply negb_true_iff; exact Ha|].
      apply (Forall_In_forallb path_safe_chars (fun a => negb (path_marks a)));
        [reflexivity|exact Hy].
  - apply not_contains.
    apply (Forall_In_forallb path_safe_chars); [reflexivity|exact Hy].
  - apply not_contains.
    apply (Forall_In_forallb path_safe_chars); [reflexivity|exact Hy].
  - apply (Forall_In_forallb path_safe_chars); [reflexivity|exact Hy].
Qed.

(** C2 (amended): strict sanitization is idempotent for the path
    context.  It is not for sql, where the second pass escapes again the
    quotes that the first pass wrote, nor for html and general on an
    input with more than 5 layers of percent-encoding, where the cap of 5
    decoding passes leaves a layer that the second pass decodes. *)
Theorem strict_idempotence_by_context :
  (forall x : str,
      sanitize_input T (sanitize_input T x (lit "path") true) (lit "path") true
      = sanitize_input T x (lit "path") true)
  /\ (sanitize_input T (lit "'") (lit "sql") true = lit "''"
      /\ sanitize_input T (lit "''") (lit "sql") true = lit "''''")
  /\ (sanitize_input T (lit "%252525252541") (lit "html") true = lit "%41"
      /\ sanitize_input T (lit "%41") (lit "html") true = lit "A")
  /\ (sanitize_input T (lit "%252525252541") (lit "general") true = lit "%41"
      /\ sanitize_input T (lit "%41") (lit "general") true = lit "A").
Proof.
  split.
  - intros x; apply sanitize_path_plain, strict_path_output_plain.
  - repeat split; vm_compute; reflexivity.
Qed.

End Properties.

(** C7, as stated, fails: on the one-character input U+00E9 (outside the
    html whitelist) non-strict mode returns the character and strict
    mode the empty string. *)
Lemma html_nonstrict_differs_from_strict :
  sanitize_input tables_excerpt [233] (lit "html") false = [233]
  /\ sanitize_input tables_excerpt [233] (lit "html") true = [].
Proof. split; vm_compute; reflexivity. Qed.

(** C8 at the context ["xml"], on an input that every category of
    patterns touches. *)
Lemma unknown_context_is_general_witness :
  sanitize_input_checked tables_excerpt (lit "<link x>'; select ../ $(rm a)")
    (lit "xml") true
  = sanitize_input_checked tables_excerpt (lit "<link x>'; select ../ $(rm a)")
      (lit "general") true.
Proof.
  refine (proj1 (unknown_context_is_general tables_excerpt
                   (lit "<link x>'; select ../ $(rm a)") (lit "xml") true
                   _ _ _ _));
    intros H; vm_compute in H; discriminate H.
Defined.

(** C3, as stated, fails: the result is not ["etc/passwd"]. *)
Lemma path_example_is_not_etc_slash_passwd :
  sanitize_input tables_excerpt (lit "../../etc/passwd") (lit "path") true
  = lit "etcpasswd"
  /\ sanitize_input tables_excerpt (lit "../../etc/passwd") (lit "path") true
     <> lit "etc/passwd".
Proof. split; [|intros H]; vm_compute in *; [reflexivity | discriminate H]. Qed.

(** C2, as stated, fails: in the sql context the second pass doubles the
    quotes that the first pass wrote. *)
Lemma sql_second_pass_changes_output :
  sanitize_input tables_excerpt (lit "'") (lit "sql") true = lit "''"
  /\ sanitize_input tables_excerpt
       (sanitize_input tables_excerpt (lit "'") (lit "sql") true)
       (lit "sql") true
     = lit "''''".
Proof. split; vm_compute; reflexivity. Qed.

(** * Further properties *)

(** ** Subsequences *)

Lemma subseq_refl (s : str) : subseq s s.
Proof. induction s; constructor; assumption. Qed.

Lemma subseq_trans (a b c : str) : subseq a b -> subseq b c -> subseq a c.
Proof.
  intros Hab Hbc; revert a Hab.
  induction Hbc as [|x b c _ IH|x b c _ IH]; intros a Hab.
  - exact Hab.
  - inversion Hab; subst; constructor; apply IH; assumption.
  - constructor; apply IH; assumption.
Qed.

Lemma subseq_length (a b : str) :
  subseq a b -> (List.length a <= List.length b)%nat.
Proof. induction 1; simpl; lia. Qed.

Lemma subseq_Forall (P : N -> Prop) (a b : str) :
  subseq a b -> Forall P b -> Forall P a.
Proof.
  induction 1 as [|c a b _ IH|c a b _ IH]; intros H.
  - exact H.
  - inversion H; subst; constructor; auto.
  - inversion H; subst; auto.
Qed.

Lemma subseq_same_length (a b : str) :
  subseq a b -> List.length a = List.length b -> a = b.
Proof.
  induction 1 as [|c a b _ IH|c a b H _]; simpl; intros E.
  - reflexivity.
  - f_equal; apply IH; lia.
  - apply subseq_length in H; lia.
Qed.

Lemma keep_only_subseq (chars : list N) (s : str) : subseq (keep_only chars s) s.
Proof.
  induction s as [|c s IH]; simpl; [constructor|].
  destruct (mem c chars); constructor; exact IH.
Qed.

Section Removal.

Variable T : py_tables.

Lemma sub_from_subseq (p : Pattern) (s : str) :
  forall skip prev, subseq (sub_from T p skip prev s) s.
Proof.
  induction s as [|c s IH]; intros skip prev; simpl; [constructor|].
  destruct skip as [|n]; [|constructor; apply IH].
  destruct (match_here T p prev (c :: s)) as [[|n]|]; constructor; apply IH.
Qed.

Lemma remove_all_subseq (ps : list Pattern) :
  forall s, subseq (remove_all T ps s) s.
Proof.
  unfold remove_all; induction ps as [|p ps IH]; intros s; simpl.
  - apply subseq_refl.
  - eapply subseq_trans; [apply IH|apply sub_from_subseq].
Qed.

Lemma sanitize_general_all (d : str) (strict : bool) :
  _sanitize_general T d strict = remove_all T all_patterns d.
Proof. reflexivity. Qed.

(** *** Matches of a pattern that spans characters *)

Lemma star_greedy_bound (test : N -> bool) (k : cont) (d : nat) :
  cont_bound d k -> cont_bound d (star_greedy test k).
Proof.
  intros Hk prev s; revert prev.
  induction s as [|c s IH]; intros prev rest; simpl; [apply Hk|].
  destruct (test c); [|apply Hk].
  destruct (star_greedy test k (Some c) s) as [r|] eqn:E.
  - intros H; injection H as <-. apply IH in E; simpl; lia.
  - apply Hk.
Qed.

Lemma star_lazy_bound (test : N -> bool) (k : cont) (d : nat) :
  cont_bound d k -> cont_bound d (star_lazy test k).
Proof.
  intros Hk prev s; revert prev.
  induction s as [|c s IH]; intros prev rest; simpl.
  - destruct (k prev []) as [r|] eqn:E; [|discriminate].
    intros H; injection H as <-; apply (Hk _ _ _ E).
  - destruct (k prev (c :: s)) as [r|] eqn:E.
    + intros H; injection H as <-; apply (Hk _ _ _ E).
    + destruct (test c); [|discriminate].
      intros H; apply IH in H; simpl; lia.
Qed.

Lemma rmatch_bound (ic da : bool) (r : regex) :
  forall k d, cont_bound d k -> cont_bound d (rmatch T ic da r k).
Proof.
  induction r as [|a|a|a|a| |r1 IH1 r2 IH2|r1 IH1 r2 IH2];
    intros k d Hk prev s rest; simpl.
  - apply Hk.
  - destruct s as [|c s]; [discriminate|].
    destruct (atom_match T ic da a c); [|discriminate].
    intros H; apply Hk in H; simpl; lia.
  - apply star_greedy_bound, Hk.
  - destruct s as [|c s]; [discriminate|].
    destruct (atom_match T ic da a c); [|discriminate].
    intros H; apply (star_greedy_bound _ _ _ Hk) in H; simpl; lia.
  - apply star_lazy_bound, Hk.
  - destruct (xorb _ _); [apply Hk|discriminate].
  - apply IH1, IH2, Hk.
  - destruct (rmatch T ic da r1 k prev s) as [x|] eqn:E.
    + intros H; injection H as <-; apply (IH1 _ _ Hk _ _ _ E).
    + apply IH2, Hk.
Qed.

Lemma rmatch_consumes (ic da : bool) (r : regex) :
  consumes r = true ->
  forall k d, cont_bound d k -> cont_bound (S d) (rmatch T ic da r k).
Proof.
  induction r as [|a|a|a|a| |r1 IH1 r2 IH2|r1 IH1 r2 IH2];
    simpl; try discriminate; intros Hc k d Hk prev s rest.
  - destruct s as [|c s]; [discriminate|].
    destruct (atom_match T ic da a c); [|discriminate].
    intros H; apply Hk in H; simpl; lia.
  - destruct s as [|c s]; [discriminate|].
    destruct (atom_match T ic da a c); [|discriminate].
    intros H; apply (star_greedy_bound _ _ _ Hk) in H; simpl; lia.
  - apply orb_true_iff in Hc; destruct Hc as [Hc|Hc].
    + apply (IH1 Hc), rmatch_bound, Hk.
    + apply rmatch_bound, (IH2 Hc), Hk.
  - apply andb_true_iff in Hc; destruct Hc as [Hc1 Hc2].
    destruct (rmatch T ic da r1 k prev s) as [x|] eqn:E.
    + intros H; injection H as <-; apply (IH1 Hc1 _ _ Hk _ _ _ E).
    + apply (IH2 Hc2), Hk.
Qed.

Lemma match_here_positive (p : Pattern) (prev : option N) (s : str) (n : nat) :
  consumes (prog p) = true -> match_here T p prev s = Some n -> (1 <= n)%nat.
Proof.
  unfold match_here; intros Hc.
  destruct (rmatch T (IGNORECASE p) (DOTALL p) (prog p)
              (fun _ rest => Some rest) prev s) as [rest|] eqn:E; [|discriminate].
  intros H; injection H as <-.
  apply (rmatch_consumes _ _ _ Hc _ O) in E; [lia|].
  intros prev' s' rest' H; injection H as <-; lia.
Qed.

Lemma sub_from_unchanged (p : Pattern) (s : str) :
  forall prev,
    search_from T p prev s = false -> sub_from T p O prev s = s.
Proof.
  induction s as [|c s IH]; intros prev; simpl; [reflexivity|].
  destruct (match_here T p prev (c :: s)); [discriminate|].
  intros H; f_equal; apply IH, H.
Qed.

Lemma sub_from_shorter (p : Pattern) (s : str) :
  consumes (prog p) = true ->
  forall prev,
    search_from T p prev s = true ->
    (List.length (sub_from T p O prev s) < List.length s)%nat.
Proof.
  intros Hc; induction s as [|c s IH]; intros prev; simpl.
  - destruct (match_here T p prev []) as [n|] eqn:E; [|discriminate].
    pose proof (match_here_positive _ _ _ _ Hc E) as Hn.
    unfold match_here in E.
    destruct (rmatch T _ _ _ _ prev []); [|discriminate].
    injection E as <-; simpl in Hn; lia.
  - destruct (match_here T p prev (c :: s)) as [n|] eqn:E.
    + intros _. pose proof (match_here_positive _ _ _ _ Hc E) as Hn.
      destruct n as [|n]; [lia|].
      pose proof (subseq_length _ _ (sub_from_subseq p s n (Some c))); lia.
    + intros H; apply IH in H; simpl; lia.
Qed.

Lemma sub_empty_unchanged_iff (p : Pattern) (x : str) :
  consumes (prog p) = true ->
  (search T p x = false <-> sub_empty T p x = x).
Proof.
  intros Hc; unfold search, sub_empty; split.
  - apply sub_from_unchanged.
  - intros E; destruct (search_from T p None x) eqn:S; [|reflexivity].
    apply (sub_from_shorter p x Hc) in S; rewrite E in S; lia.
Qed.

Lemma remove_all_unchanged_iff (ps : list Pattern) :
  forallb (fun p => consumes (prog p)) ps = true ->
  forall x,
    remove_all T ps x = x <-> (forall p, In p ps -> search T p x = false).
Proof.
  induction ps as [|p ps IH]; intros Hc x.
  - split; [intros _ p []|reflexivity].
  - simpl in Hc; apply andb_true_iff in Hc; destruct Hc as [Hp Hps].
    change (remove_all T (p :: ps) x) with (remove_all T ps (sub_empty T p x)).
    split.
    + intros E.
      assert (S : sub_empty T p x = x).
      { apply subseq_same_length; [apply sub_from_subseq|].
        pose proof (subseq_length _ _ (remove_all_subseq ps (sub_empty T p x))) as L1.
        pose proof (subseq_length _ _ (sub_from_subseq p x O None)) as L2.
        fold (sub_empty T p x) in L2. rewrite E in L1. lia. }
      rewrite S in E.
      intros q [<-|Hq].
      * apply (sub_empty_unchanged_iff p x Hp), S.
      * apply (IH Hps x); assumption.
    + intros H.
      assert (S : sub_empty T p x = x)
        by (apply (sub_empty_unchanged_iff p x Hp), H; left; reflexivity).
      rewrite S; apply (IH Hps x); intros q Hq; apply H; right; exact Hq.
Qed.

Lemma all_patterns_consume :
  forallb (fun p => consumes (prog p)) all_patterns = true.
Proof. reflexivity. Qed.

Lemma in_all_patterns (p : Pattern) :
  In p all_patterns
  <-> exists cat ps, In (cat, ps) compiled_patterns /\ In p ps.
Proof.
  unfold all_patterns; rewrite in_concat; split.
  - intros (ps & Hps & Hp). apply in_map_iff in Hps.
    destruct Hps as ([cat ps'] & <- & Hin). exists cat, ps'; split; assumption.
  - intros (cat & ps & Hin & Hp). exists ps; split; [|exact Hp].
    apply in_map_iff; exists (cat, ps); split; [reflexivity|exact Hin].
Qed.

End Removal.

Section MoreProperties.

Variable T : py_tables.

Lemma patterns_of_in (cat : category) :
  In (cat, patterns_of cat) compiled_patterns.
Proof.
  destruct cat;
    [left|right; left|right; right; left|right; right; right; left];
    reflexivity.
Qed.

Lemma safe_no_pattern_found (x ctx : str) :
  is_safe (validate_input T x ctx) = true
  <-> forall p, In p all_patterns -> search T p x = false.
Proof.
  simpl. rewrite Nat.eqb_eq, length_zero_iff_nil, scan_threats_nil; split.
  - intros H p Hp; apply in_all_patterns in Hp.
    destruct Hp as (cat & ps & Hin & Hp); apply (H cat ps p Hin Hp).
  - intros H cat ps p Hin Hp; apply H, in_all_patterns.
    exists cat, ps; split; assumption.
Qed.

(** ** Removal only deletes *)

(** X2: in the path, command and general contexts (any context other
    than html and sql), in both modes, and in the sql context in
    non-strict mode, the output of [sanitize_input] is the normalized
    input with some characters left out: nothing is added or reordered,
    and the output is not longer than the normalized input. *)
Theorem removal_contexts_only_delete :
  forall (x ctx : str) (strict : bool),
    ctx <> lit "html" -> ctx <> lit "sql" ->
    subseq (sanitize_input T x ctx strict) (_normalize_encoding T x)
    /\ (List.length (sanitize_input T x ctx strict)
        <= List.length (_normalize_encoding T x))%nat
    /\ subseq (sanitize_input T x (lit "sql") false) (_normalize_encoding T x).
Proof.
  intros x ctx strict H1 H2.
  assert (A : subseq (sanitize_input T x ctx strict) (_normalize_encoding T x)).
  { destruct x as [|c x]; [constructor|].
    unfold sanitize_input.
    rewrite (str_eqb_neq _ _ H1), (str_eqb_neq _ _ H2).
    assert (W : forall d, subseq (if strict then _whitelist_filter d ctx else d) d)
      by (intros d; destruct strict; [apply keep_only_subseq|apply subseq_refl]).
    eapply subseq_trans; [apply W|].
    destruct (str_eqb ctx (lit "path")); [|destruct (str_eqb ctx (lit "command"))].
    - unfold _sanitize_path; destruct strict;
        [eapply subseq_trans; [apply keep_only_subseq|]|]; apply remove_all_subseq.
    - unfold _sanitize_command; destruct strict;
        [eapply subseq_trans; [apply keep_only_subseq|]|]; apply remove_all_subseq.
    - rewrite sanitize_general_all; apply remove_all_subseq. }
  split; [exact A|split; [apply subseq_length, A|]].
  destruct x as [|c x]; [constructor|].
  apply remove_all_subseq.
Qed.

(** ** Detection and removal *)

(** X3: for every compiled pattern of the table, [search] finds the
    pattern in a text exactly when removing its matches changes the
    text (no pattern of the table matches the empty string). *)
Theorem detection_agrees_with_removal :
  forall (x : str) (cat : category) (ps : list Pattern) (p : Pattern),
    In (cat, ps) compiled_patterns -> In p ps ->
    (search T p x = true <-> sub_empty T p x <> x).
Proof.
  intros x cat ps p Hin Hp.
  assert (Hc : consumes (prog p) = true).
  { pose proof all_patterns_consume as H; rewrite forallb_forall in H.
    apply H, in_all_patterns; exists cat, ps; split; assumption. }
  pose proof (sub_empty_unchanged_iff T p x Hc) as E.
  destruct (search T p x); split; intros H.
  - intros S; apply E in S; discriminate.
  - reflexivity.
  - discriminate.
  - exfalso; apply H, E; reflexivity.
Qed.

(** X4: whenever [validate_input] returns a report, the report says the
    raw input is safe exactly when the pattern removal of the general
    context leaves the raw input unchanged. *)
Theorem safe_iff_general_removal_is_identity :
  forall (x ctx : str) (strict : bool) (r : report),
    validate_input_checked T x ctx = Some r ->
    (is_safe r = true <-> _sanitize_general T x strict = x).
Proof.
  intros x ctx strict r Hr.
  destruct (validate_checked_cases T x ctx) as [E|[E _]];
    rewrite E in Hr; [|discriminate Hr].
  injection Hr as <-.
  rewrite safe_no_pattern_found, sanitize_general_all.
  symmetry; apply remove_all_unchanged_iff, all_patterns_consume.
Qed.

(** X5: an input that [validate_input] reports as safe and that holds
    no percent sign, no ampersand and no surrogate is returned unchanged
    by [sanitize_input] in non-strict mode, in every context except
    html. *)
Theorem safe_plain_input_is_unchanged :
  forall (x ctx ctx' : str),
    is_safe (validate_input T x ctx') = true ->
    contains 37 x = false -> contains 38 x = false ->
    Forall (fun c => is_surrogate c = false) x ->
    ctx <> lit "html" ->
    sanitize_input T x ctx false = x.
Proof.
  intros x ctx ctx' Hsafe H37 H38 Hsur Hctx.
  rewrite safe_no_pattern_found in Hsafe.
  assert (N : _normalize_encoding T x = x).
  { apply normalize_plain; try assumption.
    eapply Forall_impl; [|exact Hsur].
    intros c Hc; rewrite Hc; reflexivity. }
  assert (R : forall cat, remove_all T (patterns_of cat) x = x).
  { intros cat; apply remove_all_unchanged_iff.
    - destruct cat; reflexivity.
    - intros p Hp; apply Hsafe, in_all_patterns.
      exists cat, (patterns_of cat); split; [apply patterns_of_in|exact Hp]. }
  destruct x as [|c x]; [reflexivity|].
  unfold sanitize_input; rewrite N, (str_eqb_neq _ _ Hctx).
  destruct (str_eqb ctx (lit "sql")); [apply (R sql)|].
  destruct (str_eqb ctx (lit "path")); [apply (R path_traversal)|].
  destruct (str_eqb ctx (lit "command")); [apply (R command_injection)|].
  rewrite sanitize_general_all.
  apply remove_all_unchanged_iff; [apply all_patterns_consume|exact Hsafe].
Qed.

(** ** The list of threats *)

Lemma flat_map_length_le {A B : Type} (f : A -> list B) (g : A -> nat)
  (l : list A) :
  (forall a, (List.length (f a) <= g a)%nat) ->
  (List.length (flat_map f l) <= list_sum (map g l))%nat.
Proof.
  intros H; induction l as [|a l IH]; simpl; [lia|].
  rewrite length_app; specialize (H a); lia.
Qed.

Lemma scan_threats_as_filter (x : str) :
  scan_threats T x
  = map threat_label (filter (fun e => search T (snd e) x) labelled_patterns).
Proof.
  unfold scan_threats, labelled_patterns.
  induction compiled_patterns as [|[cat ps] l IH]; [reflexivity|].
  cbn [flat_map fst snd]; rewrite filter_app, map_app, IH; f_equal.
  clear IH; induction ps as [|p ps IH]; [reflexivity|].
  cbn [flat_map map filter snd]; rewrite IH.
  destruct (search T p x); reflexivity.
Qed.

Lemma distinct_NoDup (l : list str) : distinct l = true -> NoDup l.
Proof.
  induction l as [|s l IH]; simpl; [constructor|].
  rewrite andb_true_iff, negb_true_iff; intros [H1 H2].
  constructor; [|apply IH, H2].
  intros Hin.
  assert (E : existsb (str_eqb s) l = true)
    by (apply existsb_exists; exists s; split; [exact Hin|apply str_eqb_refl]).
  congruence.
Qed.

Lemma NoDup_map_filter {A B : Type} (g : A -> B) (f : A -> bool) (l : list A) :
  NoDup (map g l) -> NoDup (map g (filter f l)).
Proof.
  induction l as [|a l IH]; simpl; [trivial|].
  intros H; inversion H as [|b m Hn Hd]; subst.
  destruct (f a); [|apply IH, Hd].
  simpl; constructor; [|apply IH, Hd].
  intros Hin; apply Hn.
  apply in_map_iff in Hin; destruct Hin as (y & Hy & Hin).
  apply filter_In in Hin; destruct Hin as [Hin _].
  apply in_map_iff; exists y; split; assumption.
Qed.

(** X6: the threats that [validate_input] lists are the labels
    [category: source] of the compiled patterns that [search] finds in
    the raw input, each once and in the order of the table: the list has
    no repeated entry, its entries are exactly the labels of the patterns
    found, and it has at most 26 entries. *)
Theorem threats_found_spec :
  forall (x ctx : str),
    threats_found (validate_input T x ctx)
    = map threat_label
          (filter (fun e => search T (snd e) x) labelled_patterns)
    /\ NoDup (threats_found (validate_input T x ctx))
    /\ (forall t : str,
           In t (threats_found (validate_input T x ctx))
           <-> exists cat ps p,
               In (cat, ps) compiled_patterns /\ In p ps
               /\ search T p x = true
               /\ t = category_name cat ++ lit ": " ++ pattern p)
    /\ (List.length (threats_found (validate_input T x ctx)) <= 26)%nat.
Proof.
  intros x ctx; split; [apply scan_threats_as_filter|split; [|split]].
  - simpl; rewrite scan_threats_as_filter.
    apply NoDup_map_filter, distinct_NoDup; vm_compute; reflexivity.
  - intros t; simpl; unfold scan_threats; rewrite in_flat_map; split.
    + intros ([cat ps] & Hin & Ht); simpl in Ht.
      rewrite in_flat_map in Ht; destruct Ht as (p & Hp & Ht).
      destruct (search T p x) eqn:S; [|destruct Ht].
      destruct Ht as [<-|[]].
      exists cat, ps, p; repeat split; assumption.
    + intros (cat & ps & p & Hin & Hp & S & ->).
      exists (cat, ps); split; [exact Hin|]; simpl.
      rewrite in_flat_map; exists p; split; [exact Hp|].
      rewrite S; left; reflexivity.
  - simpl; unfold scan_threats.
    change 26%nat
      with (list_sum (map (fun e : category * list Pattern =>
                             List.length (snd e)) compiled_patterns)).
    apply flat_map_length_le; intros [cat ps]; simpl.
    rewrite <- (Nat.add_0_r (List.length ps)).
    replace (List.length ps + 0)%nat with (list_sum (map (fun _ => 1%nat) ps)).
    + apply flat_map_length_le; intros p; destruct (search T p x); simpl; lia.
    + induction ps; simpl; lia.
Qed.

End MoreProperties.

Section StillMoreProperties.

Variable T : py_tables.

(** ** Shell metacharacters *)

Lemma sub_from_class (p : Pattern) (cs : list N) (s : str) :
  prog p = Chr (OneOf cs) ->
  forall skip prev,
    Forall (fun c => mem c cs = false) (sub_from T p skip prev s).
Proof.
  intros Hp; induction s as [|c s IH]; intros skip prev; simpl; [constructor|].
  destruct skip as [|n]; [|apply IH].
  assert (E : match_here T p prev (c :: s)
              = if mem c cs then Some 1%nat else None).
  { unfold match_here; rewrite Hp; cbn [rmatch atom_match].
    destruct (mem c cs); [|reflexivity].
    f_equal; cbn [List.length]; lia. }
  rewrite E; destruct (mem c cs) eqn:M; [apply IH|].
  constructor; [exact M|apply IH].
Qed.

Lemma sanitize_command_cases (x : str) (strict : bool) :
  sanitize_input T x (lit "command") strict
  = match x with
    | [] => []
    | _ =>
        let d := _sanitize_command T (_normalize_encoding T x) strict in
        if strict then _whitelist_filter d (lit "command") else d
    end.
Proof. destruct x; reflexivity. Qed.

(** X7: in the command context, in both modes, the output of
    [sanitize_input] holds none of the characters [;&|`$(){}[]<>]: the
    first command injection pattern removes each of them and the later
    steps only delete characters. *)
Theorem command_output_has_no_metacharacters :
  forall (x : str) (strict : bool),
    Forall (fun c => mem c shell_metacharacters = false)
           (sanitize_input T x (lit "command") strict).
Proof.
  intros x strict.
  assert (R : forall d, Forall (fun c => mem c shell_metacharacters = false)
                               (remove_all T (patterns_of command_injection) d)).
  { intros d.
    assert (P : exists p ps,
               patterns_of command_injection = p :: ps
               /\ prog p = Chr (OneOf shell_metacharacters))
      by (eexists; eexists; split; reflexivity).
    destruct P as (p & ps & -> & Hp).
    change (remove_all T (p :: ps) d) with (remove_all T ps (sub_empty T p d)).
    eapply subseq_Forall; [apply remove_all_subseq|].
    apply sub_from_class, Hp. }
  rewrite sanitize_command_cases; destruct x as [|c x]; [constructor|].
  cbv zeta; unfold _sanitize_command, _whitelist_filter.
  destruct strict; [do 2 apply keep_only_sub|]; apply R.
Qed.

(** ** Nested percent-encoding *)

Lemma passes_fixed (dec : str -> option str) (k : nat) (y : str) :
  dec y = Some y -> passes dec k y = Some y.
Proof. intros H; induction k; simpl; [reflexivity|rewrite H; exact IHk]. Qed.

Lemma decode_passes_complete (dec : str -> option str) (n : nat) :
  forall prev cur k y,
    (k <= n)%nat -> passes dec k cur = Some y -> dec y = Some y ->
    (prev = cur -> dec cur = Some cur) ->
    fst (decode_passes dec n prev cur) = y.
Proof.
  induction n as [|n IH]; intros prev cur k y Hk Hp Hy Hprev; simpl.
  - assert (k = O) by lia; subst k; simpl in Hp; congruence.
  - destruct (str_eqb prev cur) eqn:Q; simpl.
    + apply str_eqb_eq in Q.
      rewrite (passes_fixed dec k cur (Hprev Q)) in Hp; congruence.
    + destruct k as [|k]; simpl in Hp.
      * injection Hp as ->; rewrite Hy, decode_passes_same; reflexivity.
      * destruct (dec cur) as [next|] eqn:E; [|discriminate].
        assert (F : fst (decode_passes dec n cur next) = y).
        { apply (IH cur next k y); [lia|exact Hp|exact Hy|].
          intros <-; exact E. }
        destruct (decode_passes dec n cur next); exact F.
Qed.

(** X8: when at most 5 rounds of [unquote] turn the input into a text
    that [unquote] leaves unchanged, the decoding loop of
    [_normalize_encoding] returns that fully decoded text: up to five
    layers of percent-encoding are undone. *)
Theorem nested_encoding_is_undone :
  forall (x y : str) (k : nat),
    (k <= 5)%nat -> passes try_unquote k x = Some y -> unquote y = y ->
    fst (decode_passes try_unquote max_iterations [] x) = y
    /\ _normalize_encoding T x = utf8_roundtrip_ignore (html_unescape T y).
Proof.
  intros x y k Hk Hp Hy.
  assert (E : fst (decode_passes try_unquote max_iterations [] x) = y).
  { apply (decode_passes_complete try_unquote max_iterations [] x k y);
      [exact Hk|exact Hp|unfold try_unquote; rewrite Hy; reflexivity|].
    intros <-; reflexivity. }
  split; [exact E|unfold _normalize_encoding; rewrite E; reflexivity].
Qed.

(** X9: [_normalize_encoding] returns unchanged a text that holds no
    percent sign, no ampersand and no surrogate. *)
Theorem normalizer_leaves_plain_text :
  forall s : str,
    contains 37 s = false -> contains 38 s = false ->
    Forall (fun c => is_surrogate c = false) s ->
    _normalize_encoding T s = s.
Proof.
  intros s H37 H38 Hs; apply normalize_plain; try assumption.
  eapply Forall_impl; [|exact Hs].
  intros c Hc; rewrite Hc; reflexivity.
Qed.

(** ** The sql escapes and the whitelist *)

Lemma keep_only_replace_char (chars : list N) (old : N) (new s : str) :
  keep_only chars new = keep_only chars [old] ->
  keep_only chars (replace_char old new s) = keep_only chars s.
Proof.
  intros H; unfold keep_only, replace_char in *.
  induction s as [|c s IH]; [reflexivity|].
  cbn [flat_map]; rewrite filter_app, IH.
  destruct (c =? old) eqn:E.
  - apply N.eqb_eq in E; subst c; rewrite H.
    change (old :: s) with ([old] ++ s); rewrite filter_app; reflexivity.
  - change (c :: s) with ([c] ++ s); rewrite filter_app; reflexivity.
Qed.

Lemma sanitize_sql_strict (x : str) :
  sanitize_input T x (lit "sql") true
  = match x with
    | [] => []
    | _ =>
        keep_only (allowed (lit "sql"))
          (replace_char 34 [34; 34]
             (replace_char 39 (lit "''")
                (remove_all T (patterns_of sql) (_normalize_encoding T x))))
    end.
Proof.
  destruct x as [|c x]; [reflexivity|].
  change (sanitize_input T (c :: x) (lit "sql") true)
    with (keep_only (allowed (lit "sql"))
            (_sanitize_sql T (_normalize_encoding T (c :: x)) true)).
  unfold _sanitize_sql.
  rewrite !keep_only_replace_char by reflexivity.
  reflexivity.
Qed.

(** X10: the backslash escapes that the strict sql transform writes for
    backslash, percent and underscore never reach the output, because
    the sql whitelist drops every backslash and every percent sign: the
    strict sql output is the whitelist filter of the text in which only
    the quotes were doubled, and it holds no backslash and no percent
    sign. *)
Theorem sql_escapes_dropped_by_whitelist :
  forall x : str,
    sanitize_input T x (lit "sql") true
    = match x with
      | [] => []
      | _ =>
          keep_only (allowed (lit "sql"))
            (replace_char 34 [34; 34]
               (replace_char 39 (lit "''")
                  (remove_all T (patterns_of sql) (_normalize_encoding T x))))
      end
    /\ Forall (fun c => c <> 92 /\ c <> 37)
              (sanitize_input T x (lit "sql") true).
Proof.
  intros x; split; [apply sanitize_sql_strict|].
  rewrite sanitize_sql_strict; destruct x as [|c x]; [constructor|].
  eapply Forall_impl; [|apply keep_only_within].
  intros a Ha; apply mem_In in Ha.
  split; intros ->; vm_compute in Ha; discriminate.
Qed.

(** ** Quotes in strict sql output *)

Lemma paired_app_absent (q : N) (a b : str) :
  ~ In q a -> paired q (a ++ b) = paired q b.
Proof.
  induction a as [|c a IH]; intros H; [reflexivity|].
  cbn [app paired].
  destruct (c =? q) eqn:E.
  - apply N.eqb_eq in E; subst c; elim H; left; reflexivity.
  - apply IH; intros Hq; apply H; right; exact Hq.
Qed.

Lemma paired_flat_map (q : N) (g : N -> str) (d : str) :
  g q = [q; q] -> (forall c, c <> q -> ~ In q (g c)) ->
  paired q (flat_map g d) = true.
Proof.
  intros Hq Hg; induction d as [|c d IH]; [reflexivity|].
  cbn [flat_map]. destruct (N.eq_dec c q) as [->|Hc].
  - rewrite Hq; cbn [app paired]; rewrite N.eqb_refl; exact IH.
  - rewrite (paired_app_absent q _ _ (Hg c Hc)); exact IH.
Qed.

Lemma escaped_as_flat_map (chars : list N) (d : str) :
  keep_only chars (replace_char 34 [34; 34] (replace_char 39 (lit "''") d))
  = flat_map
      (fun c => keep_only chars
                  (replace_char 34 [34; 34] (replace_char 39 (lit "''") [c])))
      d.
Proof.
  induction d as [|c d IH]; [reflexivity|].
  cbn [flat_map]; rewrite <- IH.
  unfold keep_only, replace_char.
  cbn [flat_map]; rewrite app_nil_r, flat_map_app, filter_app.
  reflexivity.
Qed.

(** X11: in the strict sql output every single quote and every double
    quote is one of two adjacent ones: the output reads as a sequence of
    doubled quotes and of other characters, so no quote stands alone. *)
Theorem sql_quotes_come_in_pairs :
  forall x : str,
    paired 39 (sanitize_input T x (lit "sql") true) = true
    /\ paired 34 (sanitize_input T x (lit "sql") true) = true.
Proof.
  intros x; rewrite sanitize_sql_strict.
  destruct x as [|c0 x]; [split; reflexivity|].
  rewrite escaped_as_flat_map.
  assert (G : forall q c, c <> q -> (q = 39 \/ q = 34) ->
              ~ In q (keep_only (allowed (lit "sql"))
                        (replace_char 34 [34; 34]
                           (replace_char 39 (lit "''") [c])))).
  { intros q c Hc Hq Hin.
    apply filter_In in Hin; destruct Hin as [Hin _].
    unfold replace_char in Hin; cbn [flat_map] in Hin.
    destruct (c =? 39) eqn:E1.
    - apply N.eqb_eq in E1; subst c.
      vm_compute in Hin; destruct Hq; subst q; intuition congruence.
    - cbn [app flat_map] in Hin.
      destruct (c =? 34) eqn:E2.
      + apply N.eqb_eq in E2; subst c.
        vm_compute in Hin; destruct Hq; subst q; intuition congruence.
      + simpl in Hin; intuition congruence. }
  split; apply paired_flat_map; try reflexivity;
    intros c Hc; apply G; auto.
Qed.

End StillMoreProperties.

(** X2 at the context ["path"], in non-strict mode. *)
Lemma removal_contexts_only_delete_witness :
  subseq (sanitize_input tables_excerpt (lit "a/../b") (lit "path") false)
         (_normalize_encoding tables_excerpt (lit "a/../b"))
  /\ (List.length (sanitize_input tables_excerpt (lit "a/../b") (lit "path") false)
      <= List.length (_normalize_encoding tables_excerpt (lit "a/../b")))%nat
  /\ subseq (sanitize_input tables_excerpt (lit "a/../b") (lit "sql") false)
            (_normalize_encoding tables_excerpt (lit "a/../b")).
Proof.
  apply (removal_contexts_only_delete tables_excerpt (lit "a/../b") (lit "path") false);
    intros H; vm_compute in H; discriminate H.
Defined.

(** X3 at the pattern [javascript:] and a text that holds it. *)
Lemma detection_agrees_with_removal_witness :
  search tables_excerpt (re_compile (lit "javascript:", text "javascript:") true true)
         (lit "a javascript:b") = true
  <-> sub_empty tables_excerpt
        (re_compile (lit "javascript:", text "javascript:") true true)
        (lit "a javascript:b") <> lit "a javascript:b".
Proof.
  apply (detection_agrees_with_removal tables_excerpt (lit "a javascript:b") xss
           (patterns_of xss)).
  - left; reflexivity.
  - right; left; reflexivity.
Defined.

(** X5 on a plain sentence, in the sql context. *)
Lemma safe_plain_input_is_unchanged_witness :
  sanitize_input tables_excerpt (lit "Hello, world") (lit "sql") false
  = lit "Hello, world".
Proof.
  apply (safe_plain_input_is_unchanged tables_excerpt (lit "Hello, world")
           (lit "sql") (lit "general")).
  - vm_compute; reflexivity.
  - vm_compute; reflexivity.
  - vm_compute; reflexivity.
  - apply Forall_forall; intros c Hc.
    apply (proj1 (forallb_forall (fun c => negb (is_surrogate c))
                    (lit "Hello, world")) eq_refl) in Hc.
    destruct (is_surrogate c); [discriminate Hc|reflexivity].
  - intros H; vm_compute in H; discriminate H.
Defined.

(** X8 on a tag under three layers of percent-encoding. *)
Lemma nested_encoding_is_undone_witness :
  fst (decode_passes try_unquote max_iterations [] (lit "%25253Cb%25253E"))
  = lit "<b>"
  /\ _normalize_encoding tables_excerpt (lit "%25253Cb%25253E")
     = utf8_roundtrip_ignore (html_unescape tables_excerpt (lit "<b>")).
Proof.
  apply (nested_encoding_is_undone tables_excerpt (lit "%25253Cb%25253E")
           (lit "<b>") 3).
  - lia.
  - vm_compute; reflexivity.
  - vm_compute; reflexivity.
Defined.

(** X9 on a plain sentence. *)
Lemma normalizer_leaves_plain_text_witness :
  _normalize_encoding tables_excerpt (lit "Hello, world") = lit "Hello, world".
Proof.
  apply (normalizer_leaves_plain_text tables_excerpt (lit "Hello, world")).
  - vm_compute; reflexivity.
  - vm_compute; reflexivity.
  - apply Forall_forall; intros c Hc.
    apply (proj1 (forallb_forall (fun c => negb (is_surrogate c))
                    (lit "Hello, world")) eq_refl) in Hc.
    destruct (is_surrogate c); [discriminate Hc|reflexivity].
Defined.

(** X12 on a text with an astral character and a lone surrogate. *)
Lemma utf8_roundtrip_witness :
  utf8_decode_strict (utf8_encode_ignore [97; 233; 8364; 55296; 128512])
  = Some (utf8_roundtrip_ignore [97; 233; 8364; 55296; 128512]).
Proof.
  apply (utf8_roundtrip [97; 233; 8364; 55296; 128512]).
  repeat constructor; vm_compute; discriminate.
Defined.

Section Composition.

Variable T : py_tables.

(** ** Strict mode as a filter of non-strict mode *)

Lemma keep_only_idem (chars : list N) (d : str) :
  keep_only chars (keep_only chars d) = keep_only chars d.
Proof. apply keep_only_fixed, keep_only_within. Qed.

Lemma keep_only_path_whitelist (d : str) :
  keep_only (allowed (lit "path")) (keep_only path_safe_chars d)
  = keep_only path_safe_chars d.
Proof.
  apply keep_only_fixed.
  eapply Forall_impl; [intros a Ha; apply mem_In; exact Ha|].
  apply (Forall_In_forallb path_safe_chars); [reflexivity|].
  apply keep_only_within.
Qed.

(** X13: for every context other than sql and path, the strict output of
    [sanitize_input] is the whitelist filter of its non-strict output.
    For the path context the strict output is the non-strict output
    restricted to alphanumerics and [.-_], and the final whitelist step
    changes nothing there. *)
Theorem strict_is_filtered_nonstrict :
  forall (x ctx : str),
    ctx <> lit "sql" -> ctx <> lit "path" ->
    sanitize_input T x ctx true
    = _whitelist_filter (sanitize_input T x ctx false) ctx
    /\ sanitize_input T x (lit "path") true
       = keep_only path_safe_chars (sanitize_input T x (lit "path") false)
    /\ sanitize_input T x (lit "path") true
       = _sanitize_path T (_normalize_encoding T x) true.
Proof.
  intros x ctx H1 H2; split; [|split].
  - destruct x as [|c x]; [reflexivity|].
    unfold sanitize_input.
    rewrite (str_eqb_neq _ _ H1), (str_eqb_neq _ _ H2).
    destruct (str_eqb ctx (lit "html")); [reflexivity|].
    destruct (str_eqb ctx (lit "command")) eqn:E; [|reflexivity].
    apply str_eqb_eq in E; subst ctx.
    unfold _sanitize_command, _whitelist_filter.
    change (allowed (lit "command")) with (SAFE_CHARS alphanumeric ++ lit " .-_").
    apply keep_only_idem.
  - destruct x as [|c x]; [reflexivity|].
    apply keep_only_path_whitelist.
  - destruct x as [|c x]; [reflexivity|].
    apply keep_only_path_whitelist.
Qed.

(** ** Escaping and unescaping HTML *)

(** What [html.escape] writes for one character. *)
Lemma html_escape_one (c : N) :
  html_escape [c]
  = if c =? 38 then lit "&amp;"
    else if c =? 60 then lit "&lt;"
    else if c =? 62 then lit "&gt;"
    else if c =? 34 then lit "&quot;"
    else if c =? 39 then lit "&#x27;"
    else [c].
Proof.
  unfold html_escape, replace_char; cbn [flat_map].
  destruct (c =? 38) eqn:E1; [reflexivity|].
  cbn [app flat_map]; destruct (c =? 60) eqn:E2; [reflexivity|].
  cbn [app flat_map]; destruct (c =? 62) eqn:E3; [reflexivity|].
  cbn [app flat_map]; destruct (c =? 34) eqn:E4; [reflexivity|].
  cbn [app flat_map]; destruct (c =? 39) eqn:E5; reflexivity.
Qed.

Lemma html_escape_app (a b : str) :
  html_escape (a ++ b) = html_escape a ++ html_escape b.
Proof. unfold html_escape, replace_char; rewrite !flat_map_app; reflexivity. Qed.

Lemma charref_sub_without_ampersand (s : str) :
  contains 38 s = false -> charref_sub T O s = s.
Proof.
  induction s as [|c s IH]; [reflexivity|].
  unfold contains, mem; cbn [existsb charref_sub].
  rewrite (N.eqb_sym 38 c).
  destruct (c =? 38); [discriminate|].
  intros H; f_equal; apply IH, H.
Qed.

Lemma html_unescape_charref_sub (s : str) :
  html_unescape T s = charref_sub T O s.
Proof.
  unfold html_unescape; destruct (contains 38 s) eqn:E; [reflexivity|].
  symmetry; apply charref_sub_without_ampersand, E.
Qed.

(** X14: when the entity table holds [amp;], [lt;], [gt;] and [quot;]
    with their usual values, [html.unescape] undoes [html.escape]: the
    text that the html transform escapes is what the normalizer of a
    later call gets back from it. *)
Theorem html_unescape_escape :
  html5 T (lit "amp;") = Some (lit "&") ->
  html5 T (lit "lt;") = Some (lit "<") ->
  html5 T (lit "gt;") = Some (lit ">") ->
  html5 T (lit "quot;") = Some [34] ->
  forall s : str, html_unescape T (html_escape s) = s.
Proof.
  intros Hamp Hlt Hgt Hquot s.
  rewrite html_unescape_charref_sub.
  induction s as [|c s IH]; [reflexivity|].
  change (c :: s) with ([c] ++ s).
  rewrite html_escape_app, html_escape_one.
  destruct (c =? 38) eqn:E1;
    [|destruct (c =? 60) eqn:E2;
      [|destruct (c =? 62) eqn:E3;
        [|destruct (c =? 34) eqn:E4;
          [|destruct (c =? 39) eqn:E5]]]].
  - apply N.eqb_eq in E1; subst c.
    change (lit "&amp;" ++ html_escape s)
      with (38 :: 97 :: 109 :: 112 :: 59 :: html_escape s).
    cbn [charref_sub N.eqb Pos.eqb].
    change (charref_group (97 :: 109 :: 112 :: 59 :: html_escape s))
      with (Some 4%nat).
    cbn [firstn replace_charref].
    change [97; 109; 112; 59] with (lit "amp;"); rewrite Hamp.
    cbn [charref_sub]; rewrite IH; reflexivity.
  - apply N.eqb_eq in E2; subst c.
    change (lit "&lt;" ++ html_escape s)
      with (38 :: 108 :: 116 :: 59 :: html_escape s).
    cbn [charref_sub N.eqb Pos.eqb].
    change (charref_group (108 :: 116 :: 59 :: html_escape s))
      with (Some 3%nat).
    cbn [firstn replace_charref].
    change [108; 116; 59] with (lit "lt;"); rewrite Hlt.
    cbn [charref_sub]; rewrite IH; reflexivity.
  - apply N.eqb_eq in E3; subst c.
    change (lit "&gt;" ++ html_escape s)
      with (38 :: 103 :: 116 :: 59 :: html_escape s).
    cbn [charref_sub N.eqb Pos.eqb].
    change (charref_group (103 :: 116 :: 59 :: html_escape s))
      with (Some 3%nat).
    cbn [firstn replace_charref].
    change [103; 116; 59] with (lit "gt;"); rewrite Hgt.
    cbn [charref_sub]; rewrite IH; reflexivity.
  - apply N.eqb_eq in E4; subst c.
    change (lit "&quot;" ++ html_escape s)
      with (38 :: 113 :: 117 :: 111 :: 116 :: 59 :: html_escape s).
    cbn [charref_sub N.eqb Pos.eqb].
    change (charref_group (113 :: 117 :: 111 :: 116 :: 59 :: html_escape s))
      with (Some 5%nat).
    cbn [firstn replace_charref].
    change [113; 117; 111; 116; 59] with (lit "quot;"); rewrite Hquot.
    cbn [charref_sub]; rewrite IH; reflexivity.
  - apply N.eqb_eq in E5; subst c.
    change (lit "&#x27;" ++ html_escape s)
      with (38 :: 35 :: 120 :: 50 :: 55 :: 59 :: html_escape s).
    cbn [charref_sub N.eqb Pos.eqb].
    change (charref_group (35 :: 120 :: 50 :: 55 :: 59 :: html_escape s))
      with (Some 5%nat).
    cbn [firstn].
    change (replace_charref T [35; 120; 50; 55; 59]) with [39].
    cbn [charref_sub app]; rewrite IH; reflexivity.
  - cbn [app charref_sub]; rewrite E1, IH; reflexivity.
Qed.

End Composition.

(** X13 at the context ["command"]. *)
Lemma strict_is_filtered_nonstrict_witness :
  sanitize_input tables_excerpt (lit "ls -la | rm x") (lit "command") true
  = _whitelist_filter
      (sanitize_input tables_excerpt (lit "ls -la | rm x") (lit "command") false)
      (lit "command")
  /\ sanitize_input tables_excerpt (lit "ls -la | rm x") (lit "path") true
     = keep_only path_safe_chars
         (sanitize_input tables_excerpt (lit "ls -la | rm x") (lit "path") false)
  /\ sanitize_input tables_excerpt (lit "ls -la | rm x") (lit "path") true
     = _sanitize_path tables_excerpt
         (_normalize_encoding tables_excerpt (lit "ls -la | rm x")) true.
Proof.
  apply (strict_is_filtered_nonstrict tables_excerpt (lit "ls -la | rm x")
           (lit "command"));
    intros H; vm_compute in H; discriminate H.
Defined.

(** X14 with the excerpt of the entity table. *)
Lemma html_unescape_escape_witness :
  html_unescape tables_excerpt (html_escape (lit "<a href='x'>Tom & Jerry</a>"))
  = lit "<a href='x'>Tom & Jerry</a>".
Proof.
  apply (html_unescape_escape tables_excerpt); reflexivity.
Defined.

(** X4 on a text in which the second command injection pattern is
    found. *)
Lemma safe_iff_general_removal_is_identity_witness :
  is_safe (validate_input tables_excerpt (lit "rm x") (lit "general")) = true
  <-> _sanitize_general tables_excerpt (lit "rm x") false = lit "rm x".
Proof.
  apply (safe_iff_general_removal_is_identity tables_excerpt (lit "rm x")
           (lit "general") false
           (validate_input tables_excerpt (lit "rm x") (lit "general"))).
  vm_compute; reflexivity.
Defined.
